(** * The IEEE 802.15.4 link layer of CASAN for Contiki: [l2-154.c], [rf2xx.h]

    A shallow embedding of [libraries/L2-154/l2-154.c] and of the
    transmission-outcome enumeration of [fich_Compl/rf2xx.h].

    The C code works on heap objects through pointers, calls an external
    MAC library (ZigMsg) and prints on the console.  It is embedded in a
    state monad over a [world]: the heap of [l2addr_154] and [l2net_154]
    objects, the two globals of the file, the private state of the
    external library together with the log of the calls made to it, and
    the console output. *)

From Stdlib Require Import ZArith Ascii String.
From stdpp Require Import base decidable option numbers list gmap strings finite.

#[local] Open Scope Z_scope.

(** ** Declarations the file takes from headers *)

(** [l2-154.c] includes [l2-154.h], which (with the ZigMsg header it pulls
    in) declares the constants, macros and the receive-status enumeration
    used below.  They are taken as parameters; [size_t_bits] is the width
    of the platform's [size_t]. *)
Class Header := {
  size_t_bits : Z;
  I154_ADDRLEN : nat;
  I154_MTU : Z;
  CONST16 : Z → Z → Z;
  Z_FT_DATA : Z;
  Z_ADDRMODE_ADDR2 : Z;
  Z_GET_DST_ADDR_MODE : Z → Z;
  Z_GET_SRC_ADDR_MODE : Z → Z;
  Z_GET_INTRA_PAN : Z → Z;
  l2_recv_t : Type;
  RECV_EMPTY : l2_recv_t;
  RECV_OK : l2_recv_t;
  RECV_WRONG_DEST : l2_recv_t;
}.

(** Pointers are addresses; [NULL] is address 0. *)
Definition NULL : Z := 0.

(** Modelled from the spec: [struct l2net_154] is declared in [l2-154.h];
    it holds the own short address, the configured MTU and a pointer to
    the current frame received from the library.  The field names are the
    ones [l2-154.c] uses. *)
Record l2net_154 := L2net {
  myaddr_ : Z;       (* addr2_t: own short address *)
  mtu_ : Z;          (* size_t *)
  curframe_ : Z;     (* ZigReceivedFrame *: borrowed from the library *)
}.

(** The fields of the library's [ZigReceivedFrame] that [l2-154.c]
    reads. *)
Record ZigReceivedFrame := Frame {
  frametype : Z;
  fcf : Z;
  dstaddr : Z;
  srcaddr : Z;
  payload : Z;
  paylen : Z;
  rawlen : Z;
}.

(** The external MAC library: a private state, the functions of it that
    [l2-154.c] calls, and the frame found in its buffer at a pointer. *)
Class ZigMsg := {
  zig : Type;
  zig_sendto : Z → Z → Z → zig → bool * zig;
  zig_get_received : zig → Z * zig;
  zig_skip_received : zig → zig;
  zig_frame : zig → Z → ZigReceivedFrame;
  zig_setAddr2 : Z → zig → zig;
  zig_setChannel : Z → zig → zig;
  zig_setPanid : Z → zig → zig;
  zig_setMsgbufsize : Z → zig → zig;
  zig_start : zig → zig;
}.

(** Calls to the external library, as logged in the world. *)
Inductive call :=
  | Csendto (dst data len : Z)
  | Cget_received
  | Cskip_received
  | CsetAddr2 (a : Z)
  | CsetChannel (chan : Z)
  | CsetPanid (panid : Z)
  | CsetMsgbufsize (n : Z)
  | Cstart.

(** ** [rf2xx.h]: transmission outcomes *)

Inductive radio_tx_done_t :=
  | TX_OK          (* transmission completed successfully *)
  | TX_CCA_FAIL    (* channel was busy (TX_AUTO only) *)
  | TX_NO_ACK      (* no ACK received (TX_AUTO only) *)
  | TX_FAIL.       (* unexpected error *)

(** The integer a C enumerator stands for: they count up from zero. *)
Definition radio_tx_done_value (r : radio_tx_done_t) : Z :=
  match r with
  | TX_OK => 0
  | TX_CCA_FAIL => 1
  | TX_NO_ACK => 2
  | TX_FAIL => 3
  end.

#[global] Instance radio_tx_done_eq_dec : EqDecision radio_tx_done_t.
Proof. solve_decision. Defined.

(** ** Characters, as the C library classifies them (C locale) *)

Definition char_code (c : ascii) : Z := Z.of_N (N_of_ascii c).

(** The characters of a string, as codes. *)
Fixpoint chars (a : string) : list Z :=
  match a with
  | EmptyString => []
  | String c a' => char_code c :: chars a'
  end.

(** How many colons a text has. *)
Definition colons (a : string) : nat :=
  length (filter (λ ch, ch = 58) (chars a)).

Definition isdigit (c : Z) : bool := (48 <=? c) && (c <=? 57).

Definition isxdigit (c : Z) : bool :=
  isdigit c || ((65 <=? c) && (c <=? 70)) || ((97 <=? c) && (c <=? 102)).

Definition tolower (c : Z) : Z :=
  if (65 <=? c) && (c <=? 90) then c + 32 else c.

(** Conversion on assignment to a [uint8_t]. *)
Definition to_uint8 (v : Z) : Z := v mod 2 ^ 8.

(** Modelled from the spec: the type [addr2_t] of the header is a 16-bit
    short address value; this is the conversion of an [int] assigned to
    it. *)
Definition to_addr2 (v : Z) : Z := v mod 2 ^ 16.

(** ** The world and its monad *)

Section L2_154.
Context `{HD : Header} `{ZL : ZigMsg}.

(** [#define I154_SIZE_HEADER (2+1+2+2+2)] and [#define I154_SIZE_FCS 2]. *)
Definition I154_SIZE_HEADER : Z := 2 + 1 + 2 + 2 + 2.
Definition I154_SIZE_FCS : Z := 2.

(** Arithmetic on [size_t] is modulo [2 ^ size_t_bits]. *)
Definition to_size_t (v : Z) : Z := v mod 2 ^ size_t_bits.

Record world := World {
  w_live : gset Z;            (* blocks malloc handed out *)
  w_addr : gmap Z Z;          (* l2addr_154 objects: their addr_ field *)
  w_net : gmap Z l2net_154;   (* l2net_154 objects *)
  w_bcast : Z;                (* global l2addr_154_broadcast *)
  w_conmsg : Z;               (* global conmsg *)
  w_zig : zig;                (* the library's private state *)
  w_calls : list call;        (* calls made to the library, oldest first *)
  w_out : list string;        (* what printf was given, oldest first *)
  w_oom : list bool;          (* whether the coming malloc calls fail *)
  w_junk : nat → Z;           (* content of uninitialised automatic bytes *)
  w_ub : bool;                (* an invalid pointer was dereferenced *)
}.

Definition M (A : Type) : Type := world → A * world.

Definition ret {A} (x : A) : M A := λ s, (x, s).
Definition bind {A B} (c : M A) (k : A → M B) : M B :=
  λ s, let (x, s') := c s in k x s'.

Notation "x <- c ;; k" := (bind c (λ x, k))
  (at level 100, c at next level, right associativity).
Notation "c ;;; k" := (bind c (λ _, k))
  (at level 100, right associativity).

(** Undefined behaviour, once met, stays on record. *)
Definition with_ub (bad : bool) (s : world) : world :=
  World (w_live s) (w_addr s) (w_net s) (w_bcast s) (w_conmsg s) (w_zig s)
        (w_calls s) (w_out s) (w_oom s) (w_junk s)
        (if bad then true else w_ub s).

(** Whether the coming [malloc] fails: the oracle says so. *)
Definition malloc_fails (s : world) : bool :=
  match w_oom s with
  | true :: _ => true
  | _ => false
  end.

(** [malloc]: [NULL] when it fails, else a block that is neither [NULL]
    nor live, which becomes live. *)
Definition malloc : M Z := λ s,
  let p := if malloc_fails s then NULL
           else fresh ({[NULL]} ∪ w_live s) in
  (p, World (if malloc_fails s then w_live s else {[p]} ∪ w_live s)
            (w_addr s) (w_net s) (w_bcast s) (w_conmsg s) (w_zig s)
            (w_calls s) (w_out s) (tail (w_oom s)) (w_junk s) (w_ub s)).

Definition printf (msg : string) : M unit := λ s,
  (tt, World (w_live s) (w_addr s) (w_net s) (w_bcast s) (w_conmsg s)
             (w_zig s) (w_calls s) (w_out s ++ [msg]) (w_oom s) (w_junk s)
             (w_ub s)).

(** A pointer through which the program may write: a live block. *)
Definition valid (s : world) (p : Z) : Prop := p ≠ NULL ∧ p ∈ w_live s.

#[local] Instance valid_dec s p : Decision (valid s p).
Proof. unfold valid. apply _. Defined.

(** [p->addr_] read: undefined when no object was written at [p]. *)
Definition load_addr (p : Z) : M Z := λ s,
  (default 0 (w_addr s !! p),
   with_ub (if w_addr s !! p is Some _ then false else true) s).

(** [p->addr_ = v]: undefined through a pointer that is not [valid],
    which [w_ub] records.  Once [w_ub] is set the run has no defined
    continuation in C: the world computed from there on (the write kept at
    [p], what is printed or called later, the value returned) describes no
    run of the program, and [outcome] below drops it. *)
Definition store_addr (p v : Z) : M unit := λ s,
  (tt, World (w_live s) (<[p := v]> (w_addr s)) (w_net s) (w_bcast s)
             (w_conmsg s) (w_zig s) (w_calls s) (w_out s) (w_oom s)
             (w_junk s) (if decide (valid s p) then w_ub s else true)).

Definition net_at (s : world) (p : Z) : l2net_154 :=
  default (L2net 0 0 NULL) (w_net s !! p).

(** Read of the fields of [*p]: undefined when no object was written at
    [p]. *)
Definition load_net (p : Z) : M l2net_154 := λ s,
  (net_at s p, with_ub (if w_net s !! p is Some _ then false else true) s).

(** Write of [*p] as a whole, used by the three field writes below;
    undefined through a pointer that is not [valid], as [store_addr]. *)
Definition store_net (p : Z) (n : l2net_154) : M unit := λ s,
  (tt, World (w_live s) (w_addr s) (<[p := n]> (w_net s)) (w_bcast s)
             (w_conmsg s) (w_zig s) (w_calls s) (w_out s) (w_oom s)
             (w_junk s) (if decide (valid s p) then w_ub s else true)).

Definition set_myaddr (p v : Z) : M unit := λ s,
  let n := net_at s p in store_net p (L2net v (mtu_ n) (curframe_ n)) s.
Definition set_mtu (p v : Z) : M unit := λ s,
  let n := net_at s p in store_net p (L2net (myaddr_ n) v (curframe_ n)) s.
Definition set_curframe (p v : Z) : M unit := λ s,
  let n := net_at s p in store_net p (L2net (myaddr_ n) (mtu_ n) v) s.

Definition set_bcast (p : Z) : M unit := λ s,
  (tt, World (w_live s) (w_addr s) (w_net s) p (w_conmsg s) (w_zig s)
             (w_calls s) (w_out s) (w_oom s) (w_junk s) (w_ub s)).
Definition set_conmsg (p : Z) : M unit := λ s,
  (tt, World (w_live s) (w_addr s) (w_net s) (w_bcast s) p (w_zig s)
             (w_calls s) (w_out s) (w_oom s) (w_junk s) (w_ub s)).

(** A call to the library: logged, then run on the library's state. *)
Definition extern {A} (c : call) (f : zig → A * zig) : M A := λ s,
  ((f (w_zig s)).1,
   World (w_live s) (w_addr s) (w_net s) (w_bcast s) (w_conmsg s)
         (f (w_zig s)).2 (w_calls s ++ [c]) (w_out s) (w_oom s) (w_junk s)
         (w_ub s)).

Definition sendto (dst data len : Z) : M bool :=
  extern (Csendto dst data len) (zig_sendto dst data len).
Definition get_received : M Z := extern Cget_received zig_get_received.
Definition skip_received : M unit :=
  extern Cskip_received (λ z, (tt, zig_skip_received z)).
Definition setAddr2 (a : Z) : M unit :=
  extern (CsetAddr2 a) (λ z, (tt, zig_setAddr2 a z)).
Definition setChannel (c : Z) : M unit :=
  extern (CsetChannel c) (λ z, (tt, zig_setChannel c z)).
Definition setPanid (p : Z) : M unit :=
  extern (CsetPanid p) (λ z, (tt, zig_setPanid p z)).
Definition setMsgbufsize (n : Z) : M unit :=
  extern (CsetMsgbufsize n) (λ z, (tt, zig_setMsgbufsize n z)).
Definition start : M unit := extern Cstart (λ z, (tt, zig_start z)).

Definition alloc_failed : string :=
  "Memory allocation failed" +:+ String "010" EmptyString.

(** [if (p == NULL) printf("Memory allocation failed\n");] *)
Definition report_null (p : Z) : M unit :=
  if decide (p = NULL) then printf alloc_failed else ret tt.

(** ** l2addr_154 methods *)

(** The body of the [else] branch of the parsing loop: the [for] loop that
    zeroes [buf], which leaves [i] at [I154_ADDRLEN]. *)
Definition zero_buf (buf : list Z) : nat * list Z :=
  (I154_ADDRLEN, foldl (λ b i, <[i := 0]> b) buf (seq 0 I154_ADDRLEN)).

(** Value of a hexadecimal digit [ch]: [c] is its lower case, and [x] is
    [c] minus the code of the digit zero when [isdigit c], else [c] minus
    the code of the letter a, plus 10; [x] is a [uint8_t]. *)
Definition xdigit_value (ch : Z) : Z :=
  let c := tolower ch in
  to_uint8 (if isdigit c then c - 48 else c - 97 + 10).

(** The [while] loop of [init_l2addr_154_char] over the characters of
    [a], with the loop's variables [i], [b] and [buf].  The end of the
    string (or a NUL character in it) is the terminator. *)
Fixpoint parse_loop (a : string) (i : nat) (b : Z) (buf : list Z)
  : nat * Z * list Z :=
  match a with
  | EmptyString => (i, b, buf)
  | String ch a' =>
      let c := char_code ch in
      if (c =? 0) || negb (i <? I154_ADDRLEN)%nat then (i, b, buf)
      else if c =? 58 (* colon *) then parse_loop a' (S i) 0 (<[i := b]> buf)
      else if isxdigit c then
        parse_loop a' i (to_uint8 (Z.shiftl b 4 + xdigit_value c)) buf
      else let (i', buf') := zero_buf buf in (i', b, buf')
  end.

(** Lines 37 to 72: the value assigned to [addr->addr_], from the text
    [a] and the uninitialised content [buf0] of the local array. *)
Definition parse_addr (a : string) (buf0 : list Z) : Z :=
  let '(i, b, buf) := parse_loop a 0%nat 0 buf0 in
  let buf := if (i <? I154_ADDRLEN)%nat then <[i := b]> buf else buf in
  to_addr2 (CONST16 (buf !!! 0%nat) (buf !!! 1%nat)).

(** The local [uint8_t buf [I154_ADDRLEN]] before it is written. *)
Definition fresh_buf (s : world) : list Z := w_junk s <$> seq 0 I154_ADDRLEN.

Definition init_l2addr_154_char (a : string) : M Z :=
  addr <- malloc ;;
  report_null addr ;;;
  (λ s, store_addr addr (parse_addr a (fresh_buf s)) s) ;;;
  ret addr.

(** [addr2_t addr2_broadcast = CONST16 (0xff, 0xff)] *)
Definition addr2_broadcast : Z := to_addr2 (CONST16 255 255).

Definition setBroasdcastAddr : M unit :=
  p <- init_l2addr_154_char "ff:ff" ;;
  set_bcast p.

Definition init_l2addr_154_addr (x : Z) : M Z :=
  addr <- malloc ;;
  report_null addr ;;;
  v <- load_addr x ;;
  store_addr addr v ;;;
  ret addr.

Definition copyAddr (x y : Z) : M unit :=
  v <- load_addr y ;;
  store_addr x v.

Definition isEqualAddr (x y : Z) : M bool :=
  vx <- load_addr x ;;
  vy <- load_addr y ;;
  ret (bool_decide (vx = vy)).

(** ** l2net_154 methods *)

Definition startL2_154 (a chan panid : Z) : M Z :=
  l2 <- malloc ;;
  report_null l2 ;;;
  v <- load_addr a ;;
  set_myaddr l2 v ;;;
  conmsg <- malloc ;;
  set_conmsg conmsg ;;;
  report_null conmsg ;;;
  n <- load_net l2 ;;
  setAddr2 (myaddr_ n) ;;;
  setChannel chan ;;;
  setPanid panid ;;;
  setMsgbufsize 10 ;;;
  setBroasdcastAddr ;;;
  set_mtu l2 I154_MTU ;;;
  set_curframe l2 NULL ;;;
  start ;;;
  ret l2.

Definition maxpayload (l2 : Z) : M Z :=
  n <- load_net l2 ;;
  ret (to_size_t (mtu_ n - (I154_SIZE_HEADER + I154_SIZE_FCS))).

Definition send (l2 dest data len : Z) : M bool :=
  n <- load_net l2 ;;
  if len <=? to_size_t (mtu_ n - (I154_SIZE_HEADER + I154_SIZE_FCS)) then
    d <- load_addr dest ;;
    sendto d data len
  else ret false.

(** The header checks of [recv] on the frame at a non-null [curframe_]. *)
Definition frame_checks (f : ZigReceivedFrame) : bool :=
  (frametype f =? Z_FT_DATA)
  && (Z_GET_DST_ADDR_MODE (fcf f) =? Z_ADDRMODE_ADDR2)
  && (Z_GET_SRC_ADDR_MODE (fcf f) =? Z_ADDRMODE_ADDR2)
  && negb (Z_GET_INTRA_PAN (fcf f) =? 0).

Definition recv (l2 : Z) : M l2_recv_t :=
  n <- load_net l2 ;;
  (if decide (curframe_ n ≠ NULL) then skip_received else ret tt) ;;;
  p <- get_received ;;
  set_curframe l2 p ;;;
  n <- load_net l2 ;;
  λ s,
    let f := zig_frame (w_zig s) (curframe_ n) in
    if negb (curframe_ n =? NULL) && frame_checks f then
      if negb (dstaddr f =? myaddr_ n) && negb (dstaddr f =? addr2_broadcast)
      then (RECV_WRONG_DEST, s)
      else (RECV_OK, s)
    else (RECV_EMPTY, s).

(** The last statement of [recv] as a function of what it reads: the
    pointer [p] now in [curframe_], the frame [f] behind it and the own
    address. *)
Definition recv_status_of (p : Z) (f : ZigReceivedFrame) (own : Z)
  : l2_recv_t :=
  if negb (p =? NULL) && frame_checks f then
    if negb (dstaddr f =? own) && negb (dstaddr f =? addr2_broadcast)
    then RECV_WRONG_DEST else RECV_OK
  else RECV_EMPTY.

Definition bcastaddr : M Z := λ s, (w_bcast s, s).

(** [p->...] for a frame pointer [p]: the frame the library keeps there;
    undefined for [NULL]. *)
Definition frame_at (p : Z) : M ZigReceivedFrame := λ s,
  (zig_frame (w_zig s) p, with_ub (p =? NULL) s).

Definition get_src (l2 : Z) : M Z :=
  a <- malloc ;;
  report_null a ;;;
  n <- load_net l2 ;;
  f <- frame_at (curframe_ n) ;;
  store_addr a (srcaddr f) ;;;
  ret a.

Definition get_dst (l2 : Z) : M Z :=
  a <- malloc ;;
  report_null a ;;;
  n <- load_net l2 ;;
  f <- frame_at (curframe_ n) ;;
  store_addr a (dstaddr f) ;;;
  ret a.

Definition setMTU (l2 mtu : Z) : M unit := set_mtu l2 mtu.

Definition getMTU (l2 : Z) : M Z :=
  n <- load_net l2 ;;
  ret (mtu_ n).

(** ** Notions the statements use *)

(** What a function that allocates one [l2addr_154] and writes [v] in it
    leaves in the world. *)
Definition addr_made (v : Z) (bad : bool) (s : world) : Z * world :=
  ((malloc s).1,
   World (w_live (malloc s).2) (<[(malloc s).1 := v]> (w_addr s))
         (w_net s) (w_bcast s) (w_conmsg s) (w_zig s) (w_calls s)
         (w_out s ++ if malloc_fails s then [alloc_failed] else [])
         (tail (w_oom s)) (w_junk s)
         (if malloc_fails s then true else if bad then true else w_ub s)).

(** How many of the coming [k] allocations fail. *)
Definition failures (k : nat) (s : world) : nat :=
  length (filter (λ b, b = true) (take k (w_oom s))).

(** What a run of [c] from [s] gives in C: its value and world when
    nothing undefined was met up to its end, and nothing when something
    was. *)
Definition outcome {A} (c : M A) (s : world) : option (A * world) :=
  if w_ub (c s).2 then None else Some (c s).

(** [c] leaves the record of undefined behaviour as it finds it. *)
Definition sticky {A} (c : M A) : Prop :=
  ∀ s, w_ub s = true → w_ub (c s).2 = true.

End L2_154.

(** ** A concrete platform

    The header's declarations with the values of the IEEE 802.15.4 frame
    control field on a 16-bit platform, and a library that keeps the
    received frames in a queue.  The theorems hold for every [Header] and
    [ZigMsg]; this instance runs the model on concrete inputs. *)

Inductive recv_status := R_EMPTY | R_WRONG_DEST | R_TRUNCATED | R_OK.

Definition header16 : Header := {|
  size_t_bits := 16;
  I154_ADDRLEN := 2;
  I154_MTU := 127;
  CONST16 lo hi := Z.lor (Z.shiftl hi 8) lo;
  Z_FT_DATA := 1;
  Z_ADDRMODE_ADDR2 := 2;
  Z_GET_DST_ADDR_MODE w := Z.land (Z.shiftr w 10) 3;
  Z_GET_SRC_ADDR_MODE w := Z.land (Z.shiftr w 14) 3;
  Z_GET_INTRA_PAN w := Z.land (Z.shiftr w 6) 1;
  l2_recv_t := recv_status;
  RECV_EMPTY := R_EMPTY;
  RECV_OK := R_OK;
  RECV_WRONG_DEST := R_WRONG_DEST;
|}.

Definition no_frame : ZigReceivedFrame := Frame 0 0 0 0 0 0 0.

Definition queue_lib : ZigMsg := {|
  zig := list (Z * ZigReceivedFrame);
  zig_sendto dst data len q := (true, q);
  zig_get_received q := (from_option fst NULL (head q), q);
  zig_skip_received q := tail q;
  zig_frame q p := from_option snd no_frame (head q);
  zig_setAddr2 a q := q;
  zig_setChannel c q := q;
  zig_setPanid p q := q;
  zig_setMsgbufsize n q := q;
  zig_start q := q;
|}.

(** A world of [header16] and [queue_lib] with nothing in it. *)
Definition world0 (q : list (Z * ZigReceivedFrame)) (oom : list bool)
  : @world queue_lib :=
  @World queue_lib ∅ ∅ ∅ NULL NULL q [] [] oom (λ _, 170) false.

#[local] Existing Instances header16 queue_lib.

(** A data frame with short addresses and the intra-PAN bit (frame control
    0x8841), sent to 0x3412, in the library's buffer at address 100. *)
Definition frame_for_us : ZigReceivedFrame := Frame 1 34881 13330 7 200 5 16.

(** A node started on the platform above: its address is made from the
    text 12:34, then [startL2_154] is called; one frame is waiting.  The
    components are the address object, the [l2net_154] and the world. *)
Definition node : Z * Z * world :=
  let (a, s) := init_l2addr_154_char "12:34" (world0 [(100, frame_for_us)] []) in
  let (l2, s) := startL2_154 a 26 51966 s in
  (a, l2, s).

(** The same node after [setMTU (l2, 5)]. *)
Definition node_mtu5 : Z * Z * world :=
  let '(a, l2, s) := node in (a, l2, (setMTU l2 5 s).2).

(** The same node after a first [recv]. *)
Definition node_polled : Z * Z * world :=
  let '(a, l2, s) := node in (a, l2, (recv l2 s).2).

(** ** Further notions the statements use *)

(** The value of a hexadecimal digit, by its code: the digits, then the
    lower-case and the upper-case letters. *)
Definition digit_of (c : Z) : Z :=
  if (48 <=? c) && (c <=? 57) then c - 48
  else if (97 <=? c) && (c <=? 102) then c - 87
  else if (65 <=? c) && (c <=? 70) then c - 55
  else 0.

(** The number a run of hexadecimal digits writes, most significant digit
    first, on top of [acc]. *)
Definition hexval_from (acc : Z) (ds : list Z) : Z :=
  foldl (λ v c, v * 16 + digit_of c) acc ds.

Definition hexval (ds : list Z) : Z := hexval_from 0 ds.

(** A text in lower case, character by character. *)
Definition lower_char (c : ascii) : ascii :=
  ascii_of_N (Z.to_N (tolower (char_code c))).

Fixpoint lower (a : string) : string :=
  match a with
  | EmptyString => EmptyString
  | String c a' => String (lower_char c) (lower a')
  end.

Section L2_154_rest.
Context `{HD : Header} `{ZL : ZigMsg}.

Notation "x <- c ;; k" := (bind c (λ x, k))
  (at level 100, c at next level, right associativity).
Notation "c ;;; k" := (bind c (λ _, k))
  (at level 100, right associativity).

(** [free]: nothing for [NULL]; else the block is no longer live and the
    object in it is gone.  Freeing what is not live is undefined. *)
Definition free (p : Z) : M unit := λ s,
  if decide (p = NULL) then (tt, s)
  else
    (tt, World (w_live s ∖ {[p]}) (delete p (w_addr s)) (delete p (w_net s))
               (w_bcast s) (w_conmsg s) (w_zig s) (w_calls s) (w_out s)
               (w_oom s) (w_junk s)
               (if decide (p ∈ w_live s) then w_ub s else true)).

Definition freel2addr_154 (addr : Z) : M unit := free addr.

(** [get_payload] does not use its [offset]. *)
Definition get_payload (l2 offset : Z) : M Z :=
  n <- load_net l2 ;;
  f <- frame_at (curframe_ n) ;;
  ret (payload f).

Definition get_paylen (l2 : Z) : M Z :=
  n <- load_net l2 ;;
  f <- frame_at (curframe_ n) ;;
  ret (paylen f).

End L2_154_rest.

(** ** Printing *)

(** The digit [printf] writes for a value from 0 to 15 under [%x]. *)
Definition hex_digit (d : Z) : ascii :=
  ascii_of_N (Z.to_N (if d <? 10 then 48 + d else 87 + d)).

(** The digits of [v] in base 16 before [acc], most significant first and
    none of them a leading zero; [fuel] bounds their number. *)
Fixpoint hex_digits (fuel : nat) (v : Z) (acc : string) : string :=
  match fuel with
  | O => acc
  | S fuel' =>
      let acc' := String (hex_digit (v mod 16)) acc in
      if v / 16 =? 0 then acc' else hex_digits fuel' (v / 16) acc'
  end.

(** The text a list of [printf] outputs makes. *)
Definition printed (out : list string) : string :=
  foldr String.append EmptyString out.

Definition newline : string := String "010" EmptyString.

(** The two digits of a byte, high half first, as [dump_packet] prints
    them. *)
Definition byte_text (b : Z) : list string :=
  [String (hex_digit (Z.land (Z.shiftr b 4) 15)) EmptyString;
   String (hex_digit (Z.land b 15)) EmptyString].

Section Printing.
Context `{HD : Header} `{ZL : ZigMsg}.

(** The two macros of the header that [printAddr] uses, and the bytes of
    the raw frame the library keeps behind a frame pointer. *)
Variables (BYTE_LOW BYTE_HIGH : Z → Z).
Variable rawframe : zig → Z → Z → Z.

Notation "x <- c ;; k" := (bind c (λ x, k))
  (at level 100, c at next level, right associativity).
Notation "c ;;; k" := (bind c (λ _, k))
  (at level 100, right associativity).

(** [printf ("%x", v)] for an unsigned [v] below [2 ^ 64]. *)
Definition printf_x (v : Z) : M unit := printf (hex_digits 16 v EmptyString).

Definition printAddr (x : Z) : M unit :=
  v <- load_addr x ;;
  printf_x (BYTE_LOW v) ;;;
  printf " : " ;;;
  v <- load_addr x ;;
  printf_x (BYTE_HIGH v).

Definition printAddr_2 (x : Z) : M unit :=
  printf_x (BYTE_LOW x) ;;;
  printf " : " ;;;
  printf_x (BYTE_HIGH x).

(** [printf (' ')]: the format argument is a character, not a string;
    what [printf] then reads is undefined, and so is the rest of the
    run: [w_ub] records it, and nothing the model gives after it is a
    statement about the program. *)
Definition printf_char : M unit := λ s, (tt, with_ub true s).

(** [for (i = first; ...; i++) body], for [count] rounds. *)
Fixpoint for_loop (count : nat) (i : Z) (body : Z → M unit) : M unit :=
  match count with
  | O => ret tt
  | S count' => body i ;;; for_loop count' (i + 1) body
  end.

Definition dump_packet (l2 start maxlen : Z) : M unit :=
  net <- load_net l2 ;;
  f <- frame_at (curframe_ net) ;;
  λ s,
    let raw := rawframe (w_zig s) (curframe_ net) in
    let n := to_size_t (start + maxlen) in
    let n := if rawlen f <? n then rawlen f else n in
    (for_loop (Z.to_nat (n - start)) start
       (λ i,
          (if start <? i then printf_char else ret tt) ;;;
          printf_x (Z.land (Z.shiftr (raw i) 4) 15) ;;;
          printf_x (Z.land (raw i) 15)) ;;;
     printf newline) s.

End Printing.

(** ** [rf2xx.h]: the two inline functions *)

Section RF2xx.

(** The register access functions are declared in [rf2xx.h] and defined
    elsewhere; the register addresses and the mask come from
    [rf2xx_regs.h].  [chip] is the state of the radio and of its bus. *)
Context {chip : Type}.
Variable rf2xx_reg_read : Z → Z → chip → Z * chip.
Variable rf2xx_reg_write : Z → Z → Z → chip → chip.
Variables (RF2XX_REG__TRX_STATE RF2XX_REG__TRX_STATUS : Z).
Variable RF2XX_TRX_STATUS_MASK__TRX_STATUS : Z.

Definition rf2xx_set_state (radio state : Z) (c : chip) : chip :=
  rf2xx_reg_write radio RF2XX_REG__TRX_STATE state c.

Definition rf2xx_get_status (radio : Z) (c : chip) : Z * chip :=
  let (v, c') := rf2xx_reg_read radio RF2XX_REG__TRX_STATUS c in
  (to_uint8 (Z.land v RF2XX_TRX_STATUS_MASK__TRX_STATUS), c').

End RF2xx.

(** ** More of the concrete platform *)

(** The two byte macros as the usual masks and shift, and a raw frame
    whose byte number [i] is [16 * i + 1]. *)
Definition byte_low (v : Z) : Z := Z.land v 255.
Definition byte_high (v : Z) : Z := Z.shiftr (Z.land v 65280) 8.
Definition counting_raw (q : list (Z * ZigReceivedFrame)) (p i : Z) : Z :=
  16 * i + 1.

(** The world in which [node] is started: the address object exists, the
    [l2net_154] does not yet. *)
Definition addressed : Z * world :=
  init_l2addr_154_char "12:34" (world0 [(100, frame_for_us)] []).

(** ** Properties *)

(** C10: [radio_tx_done_t] has exactly four values, [TX_OK] (success),
    [TX_CCA_FAIL] (channel busy), [TX_NO_ACK] (no acknowledgement) and
    [TX_FAIL] (generic failure): every outcome is one of them, the four are
    pairwise distinct, and as C enumerators they are 0, 1, 2 and 3. *)
Theorem radio_tx_done_t_four_values :
  (∀ r : radio_tx_done_t,
     r = TX_OK ∨ r = TX_CCA_FAIL ∨ r = TX_NO_ACK ∨ r = TX_FAIL)
  ∧ NoDup [TX_OK; TX_CCA_FAIL; TX_NO_ACK; TX_FAIL]
  ∧ radio_tx_done_value <$> [TX_OK; TX_CCA_FAIL; TX_NO_ACK; TX_FAIL]
    = [0; 1; 2; 3].
Proof.
  split; [intros []; tauto |].
  split; [| reflexivity].
  compute_done.
Qed.

Section Properties.
Context `{HD : Header} `{ZL : ZigMsg}.
Implicit Types (s : world) (x y p : Z) (n : l2net_154).

Lemma load_addr_some s x v :
  w_addr s !! x = Some v → load_addr x s = (v, s).
Proof. intros Hx. unfold load_addr. rewrite Hx. by destruct s. Qed.

Lemma load_net_some s l2 n :
  w_net s !! l2 = Some n → load_net l2 s = (n, s).
Proof. intros Hn. unfold load_net, net_at. rewrite Hn. by destruct s. Qed.

(** C5: [isEqualAddr (x, y)] is true exactly when the two [addr_] fields
    are equal, and changes nothing; [copyAddr (x, y)] makes the field of
    [x] equal to that of [y], leaves [y] (and every address object other
    than [x]) as it was, and after it [isEqualAddr (x, y)] is true. *)
Theorem copyAddr_isEqualAddr s x y vx vy :
  w_addr s !! x = Some vx →
  w_addr s !! y = Some vy →
  ((isEqualAddr x y s).1 = true ↔ vx = vy)
  ∧ (isEqualAddr x y s).2 = s
  ∧ let s' := (copyAddr x y s).2 in
    w_addr s' !! x = Some vy
    ∧ w_addr s' !! y = Some vy
    ∧ (∀ z, z ≠ x → w_addr s' !! z = w_addr s !! z)
    ∧ (isEqualAddr x y s').1 = true.
Proof.
  intros Hx Hy.
  assert (Hcopy : w_addr (copyAddr x y s).2 = <[x := vy]> (w_addr s)).
  { unfold copyAddr, bind. by rewrite (load_addr_some _ _ _ Hy). }
  assert (Hx' : w_addr (copyAddr x y s).2 !! x = Some vy).
  { rewrite Hcopy. apply lookup_insert_eq. }
  assert (Hy' : w_addr (copyAddr x y s).2 !! y = Some vy).
  { rewrite Hcopy. destruct (decide (x = y)) as [->|Hne].
    - apply lookup_insert_eq.
    - by rewrite lookup_insert_ne. }
  split; [| split; [| repeat split]].
  - unfold isEqualAddr, bind.
    rewrite (load_addr_some _ _ _ Hx), (load_addr_some _ _ _ Hy). simpl.
    apply bool_decide_eq_true.
  - unfold isEqualAddr, bind.
    by rewrite (load_addr_some _ _ _ Hx), (load_addr_some _ _ _ Hy).
  - exact Hx'.
  - exact Hy'.
  - intros z Hz. rewrite Hcopy. by rewrite lookup_insert_ne.
  - unfold isEqualAddr, bind.
    rewrite (load_addr_some _ _ _ Hx'), (load_addr_some _ _ _ Hy'). simpl.
    by apply bool_decide_eq_true.
Qed.

(** The two sizes add up to the 11 bytes of the fixed header (9) and of
    the trailing checksum (2). *)
Lemma I154_sizes :
  I154_SIZE_HEADER = 9 ∧ I154_SIZE_FCS = 2
  ∧ I154_SIZE_HEADER + I154_SIZE_FCS = 11.
Proof. by compute. Qed.

(** A [size_t] difference that goes below zero wraps around once. *)
Lemma size_t_sub_wraps (m k : Z) :
  0 ≤ m < k → k ≤ 2 ^ size_t_bits →
  (m - k) mod 2 ^ size_t_bits = m - k + 2 ^ size_t_bits.
Proof.
  intros Hm Hk. symmetry.
  apply (Z.mod_unique _ _ (-1)); lia.
Qed.

(** C3, amended: [maxpayload (l2)] is the MTU minus the 9 bytes of the
    fixed header (2 + 1 + 2 + 2 + 2) minus the 2 bytes of the checksum,
    computed in [size_t] arithmetic, that is modulo [2 ^ size_t_bits]; it
    is [mtu_ - 11] whenever [11 <= mtu_] (and [mtu_] is a [size_t]), and
    [mtu_ - 11 + 2 ^ size_t_bits] when [mtu_ < 11].  The call changes
    nothing. *)
Theorem maxpayload_mod s l2 n :
  w_net s !! l2 = Some n →
  I154_SIZE_HEADER = 2 + 1 + 2 + 2 + 2 ∧ I154_SIZE_FCS = 2
  ∧ maxpayload l2 s = ((mtu_ n - 11) mod 2 ^ size_t_bits, s)
  ∧ (11 ≤ mtu_ n < 2 ^ size_t_bits → (maxpayload l2 s).1 = mtu_ n - 11)
  ∧ (0 ≤ mtu_ n < 11 → 11 ≤ 2 ^ size_t_bits →
     (maxpayload l2 s).1 = mtu_ n - 11 + 2 ^ size_t_bits).
Proof.
  intros Hn.
  assert (Hrun : maxpayload l2 s = ((mtu_ n - 11) mod 2 ^ size_t_bits, s)).
  { unfold maxpayload, bind. by rewrite (load_net_some _ _ _ Hn). }
  rewrite Hrun. simpl. repeat split.
  - intros Hm. apply Z.mod_small. lia.
  - intros Hm Hw. by apply size_t_sub_wraps.
Qed.

(** What [send] does, by the outcome of its test. *)
Lemma send_run s l2 n dest d data len :
  w_net s !! l2 = Some n →
  w_addr s !! dest = Some d →
  send l2 dest data len s =
    if len <=? (mtu_ n - 11) mod 2 ^ size_t_bits
    then sendto d data len s
    else (false, s).
Proof.
  intros Hn Hd. unfold send, bind. rewrite (load_net_some _ _ _ Hn).
  change (to_size_t (mtu_ n - (I154_SIZE_HEADER + I154_SIZE_FCS)))
    with ((mtu_ n - 11) mod 2 ^ size_t_bits).
  destruct (len <=? _); [| reflexivity].
  by rewrite (load_addr_some _ _ _ Hd).
Qed.

(** C4, amended: [send] calls [sendto] (once, with the destination's
    [addr_], [data] and [len]) and returns its result exactly when
    [len <= mtu_ - 11] in [size_t] arithmetic, and otherwise returns false
    and calls nothing.  When [mtu_ < 11] the subtraction wraps around to
    [2 ^ size_t_bits - 11 + mtu_], so [send] calls [sendto] for every [len]
    up to that value, and not for the [10 - mtu_] larger ones. *)
Theorem send_calls_sendto s l2 n dest d data len :
  w_net s !! l2 = Some n →
  w_addr s !! dest = Some d →
  (len ≤ (mtu_ n - 11) mod 2 ^ size_t_bits →
     send l2 dest data len s = sendto d data len s
     ∧ (send l2 dest data len s).1 = (zig_sendto d data len (w_zig s)).1
     ∧ w_calls (send l2 dest data len s).2
       = w_calls s ++ [Csendto d data len])
  ∧ (¬ len ≤ (mtu_ n - 11) mod 2 ^ size_t_bits →
     send l2 dest data len s = (false, s))
  ∧ (0 ≤ mtu_ n < 11 → 11 ≤ 2 ^ size_t_bits →
     (w_calls (send l2 dest data len s).2 = w_calls s ++ [Csendto d data len]
      ↔ len ≤ 2 ^ size_t_bits - 11 + mtu_ n)).
Proof.
  intros Hn Hd. pose proof (send_run s l2 n dest d data len Hn Hd) as Hrun.
  assert (Hcalls : w_calls (sendto d data len s).2
                   = w_calls s ++ [Csendto d data len]).
  { reflexivity. }
  assert (Hres : (sendto d data len s).1 = (zig_sendto d data len (w_zig s)).1).
  { reflexivity. }
  split; [| split].
  - intros Hle. apply Z.leb_le in Hle. rewrite Hle in Hrun.
    rewrite Hrun. auto.
  - intros Hgt. apply Z.leb_nle in Hgt. by rewrite Hgt in Hrun.
  - intros Hm Hw.
    assert (Hthr : (mtu_ n - 11) mod 2 ^ size_t_bits
                   = 2 ^ size_t_bits - 11 + mtu_ n).
    { rewrite size_t_sub_wraps; lia. }
    rewrite Hthr in Hrun. rewrite Hrun.
    destruct (len <=? _) eqn:Hle.
    + apply Z.leb_le in Hle. by rewrite Hcalls.
    + apply Z.leb_nle in Hle. simpl. split; [| done].
      intros Habs. exfalso.
      apply (f_equal length) in Habs. rewrite length_app in Habs.
      simpl in Habs. lia.
Qed.

(** One run of [recv] on an [l2net_154] object, in full. *)
Lemma recv_run s l2 n :
  w_net s !! l2 = Some n →
  let z0 := if decide (curframe_ n ≠ NULL)
            then zig_skip_received (w_zig s) else w_zig s in
  let p := (zig_get_received z0).1 in
  let z1 := (zig_get_received z0).2 in
  recv l2 s =
    (recv_status_of p (zig_frame z1 p) (myaddr_ n),
     World (w_live s) (w_addr s)
           (<[l2 := L2net (myaddr_ n) (mtu_ n) p]> (w_net s))
           (w_bcast s) (w_conmsg s) z1
           (w_calls s ++ if decide (curframe_ n ≠ NULL)
                         then [Cskip_received; Cget_received]
                         else [Cget_received])
           (w_out s) (w_oom s) (w_junk s)
           (if decide (valid s l2) then w_ub s else true)).
Proof.
  intros Hn z0 p z1. subst z0 p z1.
  unfold recv, bind, load_net, net_at. rewrite Hn. simpl.
  destruct (decide (curframe_ n ≠ NULL)); simpl;
    unfold net_at; simpl; rewrite Hn; simpl; rewrite !lookup_insert_eq; simpl;
    unfold recv_status_of, valid; simpl; rewrite <- ?app_assoc; simpl;
    by repeat case_match.
Qed.

(** The same run through a pointer at which no [l2net_154] was written:
    the fields read are the zero ones, and the read is recorded as
    undefined. *)
Lemma recv_run_wild s l2 :
  w_net s !! l2 = None →
  let p := (zig_get_received (w_zig s)).1 in
  let z1 := (zig_get_received (w_zig s)).2 in
  recv l2 s =
    (recv_status_of p (zig_frame z1 p) 0,
     World (w_live s) (w_addr s) (<[l2 := L2net 0 0 p]> (w_net s))
           (w_bcast s) (w_conmsg s) z1 (w_calls s ++ [Cget_received])
           (w_out s) (w_oom s) (w_junk s) true).
Proof.
  intros Hn p z1. subst p z1.
  unfold recv, bind, load_net, net_at. rewrite Hn. simpl.
  unfold net_at. simpl. rewrite Hn. simpl. rewrite !lookup_insert_eq. simpl.
  unfold recv_status_of, valid. simpl.
  by repeat case_match.
Qed.

(** The status [recv] returns, for any pointer [l2]. *)
Lemma recv_returns s l2 :
  let n := net_at s l2 in
  let z0 := if decide (curframe_ n ≠ NULL)
            then zig_skip_received (w_zig s) else w_zig s in
  let p := (zig_get_received z0).1 in
  (recv l2 s).1 = recv_status_of p (zig_frame (zig_get_received z0).2 p)
                                 (myaddr_ n).
Proof.
  unfold net_at. destruct (w_net s !! l2) as [n|] eqn:Hn; simpl.
  - by rewrite (recv_run s l2 n Hn).
  - by rewrite (recv_run_wild s l2 Hn).
Qed.

(** C1: for a frame that [get_received] returns (a non-null pointer [p] to
    a frame [f]), [recv] finds the frame valid, that is returns something
    else than [RECV_EMPTY], exactly when the header checks pass: the frame
    type is data, the destination and source address modes are both the
    16-bit short one, and the intra-PAN bit is set.  A valid frame yields
    [RECV_OK] when its destination is the own address or the broadcast
    address, and [RECV_WRONG_DEST] otherwise. *)
Theorem recv_classifies s l2 n :
  w_net s !! l2 = Some n →
  RECV_EMPTY ≠ RECV_OK →
  RECV_EMPTY ≠ RECV_WRONG_DEST →
  let z0 := if decide (curframe_ n ≠ NULL)
            then zig_skip_received (w_zig s) else w_zig s in
  let p := (zig_get_received z0).1 in
  let f := zig_frame (zig_get_received z0).2 p in
  let checks := frametype f = Z_FT_DATA
                ∧ Z_GET_DST_ADDR_MODE (fcf f) = Z_ADDRMODE_ADDR2
                ∧ Z_GET_SRC_ADDR_MODE (fcf f) = Z_ADDRMODE_ADDR2
                ∧ Z_GET_INTRA_PAN (fcf f) ≠ 0 in
  let to_us := dstaddr f = myaddr_ n ∨ dstaddr f = addr2_broadcast in
  p ≠ NULL →
  ((recv l2 s).1 ≠ RECV_EMPTY ↔ checks)
  ∧ (checks → to_us → (recv l2 s).1 = RECV_OK)
  ∧ (checks → ¬ to_us → (recv l2 s).1 = RECV_WRONG_DEST).
Proof.
  intros Hn Hok Hwd z0 p f checks to_us Hp.
  rewrite (recv_run s l2 n Hn). simpl. fold z0. fold p. fold f.
  assert (Hchk : frame_checks f = true ↔ checks).
  { unfold frame_checks, checks.
    rewrite !andb_true_iff, negb_true_iff, !Z.eqb_eq, Z.eqb_neq. tauto. }
  assert (Hdst : negb (dstaddr f =? myaddr_ n)
                 && negb (dstaddr f =? addr2_broadcast) = true ↔ ¬ to_us).
  { unfold to_us.
    rewrite andb_true_iff, !negb_true_iff, !Z.eqb_neq. tauto. }
  unfold recv_status_of.
  apply Z.eqb_neq in Hp. rewrite Hp. simpl.
  destruct (frame_checks f) eqn:Hc.
  - assert (checks) as Hchecks by by apply Hchk.
    destruct (negb _ && negb _) eqn:Hd.
    + assert (¬ to_us) as Hnot by by apply Hdst.
      split; [split; [done | by intros _; apply not_eq_sym] |].
      split; [intros _ Hto; by destruct Hnot | done].
    + assert (¬ ¬ to_us) as Hnn by (rewrite <- Hdst; congruence).
      split; [split; [done | by intros _; apply not_eq_sym] |].
      split; [done | intros _ Hnot; by destruct Hnn].
  - assert (¬ checks) as Hno by (rewrite <- Hchk; congruence).
    split; [split; [done | intros Hchecks; by destruct Hno] |].
    split; intros Hchecks; by destruct Hno.
Qed.

(** C2: whatever [get_received] returns, [recv] returns [RECV_EMPTY],
    [RECV_OK] or [RECV_WRONG_DEST] and nothing else; it returns
    [RECV_EMPTY] when there is no frame (a null pointer) and when the
    frame fails the header checks. *)
Theorem recv_three_results s l2 :
  let n := net_at s l2 in
  let z0 := if decide (curframe_ n ≠ NULL)
            then zig_skip_received (w_zig s) else w_zig s in
  let p := (zig_get_received z0).1 in
  let f := zig_frame (zig_get_received z0).2 p in
  ((recv l2 s).1 = RECV_EMPTY ∨ (recv l2 s).1 = RECV_OK
   ∨ (recv l2 s).1 = RECV_WRONG_DEST)
  ∧ (p = NULL → (recv l2 s).1 = RECV_EMPTY)
  ∧ (frame_checks f = false → (recv l2 s).1 = RECV_EMPTY).
Proof.
  intros n z0 p f.
  assert (Hr : (recv l2 s).1 = recv_status_of p f (myaddr_ n))
    by apply recv_returns.
  rewrite Hr. unfold recv_status_of.
  split; [| split].
  - repeat case_match; auto.
  - intros Hp. apply Z.eqb_eq in Hp. by rewrite Hp.
  - intros Hf. by rewrite Hf, andb_false_r.
Qed.

(** C6: a call to [recv] replaces the current-frame pointer.  If a frame
    was held ([curframe_] not null) the call first releases it with
    [skip_received]; then it calls [get_received] and stores the pointer
    that call returned in [curframe_].  The own address and the MTU of
    the [l2net_154] are as before, and so are the other objects. *)
Theorem recv_replaces_curframe s l2 n :
  w_net s !! l2 = Some n →
  let z0 := if decide (curframe_ n ≠ NULL)
            then zig_skip_received (w_zig s) else w_zig s in
  let s' := (recv l2 s).2 in
  w_calls s' = w_calls s ++ (if decide (curframe_ n ≠ NULL)
                             then [Cskip_received; Cget_received]
                             else [Cget_received])
  ∧ w_net s' !! l2
    = Some (L2net (myaddr_ n) (mtu_ n) (zig_get_received z0).1)
  ∧ w_zig s' = (zig_get_received z0).2
  ∧ (∀ l, l ≠ l2 → w_net s' !! l = w_net s !! l)
  ∧ w_addr s' = w_addr s.
Proof.
  intros Hn z0 s'. unfold s'. rewrite (recv_run s l2 n Hn). simpl.
  fold z0. repeat split.
  - apply lookup_insert_eq.
  - intros l Hl. by rewrite lookup_insert_ne.
Qed.

(** *** Parsing an address *)

(** The zeroing loop over the indices from [k], [m] of them. *)
Lemma zero_range_lookup (m k : nat) (buf : list Z) (j : nat) :
  foldl (λ b i, <[i := 0]> b) buf (seq k m) !! j
  = if decide (k ≤ j < k + m)%nat then (λ _, 0) <$> buf !! j else buf !! j.
Proof.
  revert k buf. induction m as [|m IH]; intros k buf; simpl.
  - case_decide; [lia | done].
  - rewrite IH. destruct (decide (j = k)) as [->|Hjk].
    + rewrite decide_False by lia. rewrite decide_True by lia.
      destruct (decide (k < length buf)%nat) as [Hlt|Hge].
      * rewrite list_lookup_insert_eq by done.
        destruct (lookup_lt_is_Some_2 buf k Hlt) as [v ->]. done.
      * rewrite list_insert_ge by lia.
        by rewrite (lookup_ge_None_2 buf k) by lia.
    + rewrite list_lookup_insert_ne by done.
      repeat case_decide; done || lia.
Qed.

Lemma zero_buf_lookup (buf : list Z) (j : nat) :
  length buf = I154_ADDRLEN → (j < I154_ADDRLEN)%nat →
  (zero_buf buf).1 = I154_ADDRLEN ∧ (zero_buf buf).2 !!! j = 0.
Proof.
  intros Hlen Hj. split; [done |].
  apply list_lookup_total_correct. unfold zero_buf. simpl.
  rewrite zero_range_lookup. rewrite decide_True by lia.
  destruct (lookup_lt_is_Some_2 buf j) as [v ->]; [lia | done].
Qed.

(** A character of the text that is neither a colon nor a hexadecimal
    digit, met while fewer than [I154_ADDRLEN] colons were read, ends the
    loop with [i = I154_ADDRLEN] and [buf] zeroed. *)
Lemma parse_loop_invalid (pre suf : string) (c : ascii) :
  Forall (λ ch, ch = 58 ∨ isxdigit ch = true) (chars pre) →
  char_code c ≠ 0 → char_code c ≠ 58 → isxdigit (char_code c) = false →
  ∀ (i : nat) (b : Z) (buf : list Z),
    (i + colons pre < I154_ADDRLEN)%nat →
    length buf = I154_ADDRLEN →
    ∃ b' buf', length buf' = I154_ADDRLEN
      ∧ parse_loop (pre +:+ String c suf) i b buf
        = (I154_ADDRLEN, b', (zero_buf buf').2).
Proof.
  intros Hpre Hc0 Hc58 Hcx.
  induction pre as [|ch pre IH]; intros i b buf Hi Hlen;
    unfold colons in *; simpl in *.
  - exists b, buf. split; [done |].
    apply Z.eqb_neq in Hc0, Hc58. rewrite Hc0, Hc58, Hcx.
    assert (Hlt : (i <? I154_ADDRLEN)%nat = true) by (apply Nat.ltb_lt; lia).
    by rewrite Hlt.
  - apply Forall_cons in Hpre as [Hch Hpre].
    rewrite filter_cons in Hi.
    assert (Hlt : (i <? I154_ADDRLEN)%nat = true).
    { apply Nat.ltb_lt. lia. }
    assert (Hnz : (char_code ch =? 0) = false).
    { apply Z.eqb_neq. destruct Hch as [->|Hx]; [done |].
      intros Hz. by rewrite Hz in Hx. }
    rewrite Hnz, Hlt. simpl.
    destruct (char_code ch =? 58) eqn:H58.
    + apply Z.eqb_eq in H58. rewrite decide_True in Hi by done.
      simpl in Hi. apply IH; [done | lia | by rewrite length_insert].
    + apply Z.eqb_neq in H58. rewrite decide_False in Hi by done.
      destruct Hch as [?|Hx]; [done |]. rewrite Hx.
      by apply IH.
Qed.

Lemma parse_addr_invalid (pre suf : string) (c : ascii) (buf0 : list Z) :
  (2 ≤ I154_ADDRLEN)%nat →
  length buf0 = I154_ADDRLEN →
  Forall (λ ch, ch = 58 ∨ isxdigit ch = true) (chars pre) →
  (colons pre < I154_ADDRLEN)%nat →
  char_code c ≠ 0 → char_code c ≠ 58 → isxdigit (char_code c) = false →
  parse_addr (pre +:+ String c suf) buf0 = to_addr2 (CONST16 0 0).
Proof.
  intros Hlen2 Hlen Hpre Hcol Hc0 Hc58 Hcx. unfold parse_addr.
  destruct (parse_loop_invalid pre suf c Hpre Hc0 Hc58 Hcx 0%nat 0 buf0)
    as (b' & buf' & Hlen' & ->); [done | done |].
  rewrite Nat.ltb_irrefl.
  destruct (zero_buf_lookup buf' 0 Hlen') as [_ ->]; [lia |].
  destruct (zero_buf_lookup buf' 1 Hlen') as [_ ->]; [lia |].
  done.
Qed.

Lemma fresh_buf_length s : length (fresh_buf s) = I154_ADDRLEN.
Proof. unfold fresh_buf. by rewrite length_fmap, length_seq. Qed.

(** One run of [init_l2addr_154_char], in full. *)
Lemma init_l2addr_154_char_run (a : string) s :
  init_l2addr_154_char a s =
    ((malloc s).1,
     World (w_live (malloc s).2)
           (<[(malloc s).1 := parse_addr a (fresh_buf s)]> (w_addr s))
           (w_net s) (w_bcast s) (w_conmsg s) (w_zig s) (w_calls s)
           (w_out s ++ if malloc_fails s then [alloc_failed] else [])
           (tail (w_oom s)) (w_junk s)
           (if malloc_fails s then true else w_ub s)).
Proof.
  unfold init_l2addr_154_char, bind, report_null, store_addr, valid. simpl.
  destruct (malloc_fails s) eqn:Hf; simpl.
  - reflexivity.
  - pose proof (is_fresh ({[NULL]} ∪ w_live s)) as Hfresh.
    rewrite decide_False by set_solver. simpl.
    rewrite decide_True by set_solver. by rewrite app_nil_r.
Qed.

(** C8: when the text given to [init_l2addr_154_char] has, where the loop
    reads it (before the end of the text and while fewer than
    [I154_ADDRLEN] colons were read), a character that is neither a
    hexadecimal digit nor a colon, both bytes are zeroed and the address
    written through the returned pointer is [CONST16 (0, 0)], whatever
    digits came before it; that is 0 as soon as [CONST16] sends two zero
    bytes to 0. *)
Theorem init_l2addr_154_char_invalid s (pre suf : string) (c : ascii) :
  (2 ≤ I154_ADDRLEN)%nat →
  Forall (λ ch, ch = 58 ∨ isxdigit ch = true) (chars pre) →
  (colons pre < I154_ADDRLEN)%nat →
  char_code c ≠ 0 → char_code c ≠ 58 → isxdigit (char_code c) = false →
  let r := init_l2addr_154_char (pre +:+ String c suf) s in
  w_addr r.2 !! r.1 = Some (to_addr2 (CONST16 0 0))
  ∧ (CONST16 0 0 = 0 → w_addr r.2 !! r.1 = Some 0).
Proof.
  intros Hlen2 Hpre Hcol Hc0 Hc58 Hcx r.
  assert (Hr : w_addr r.2 !! r.1 = Some (to_addr2 (CONST16 0 0))).
  { unfold r. rewrite init_l2addr_154_char_run. simpl.
    rewrite lookup_insert_eq.
    rewrite (parse_addr_invalid pre suf c); try done.
    apply fresh_buf_length. }
  split; [done |]. intros Hzero. by rewrite Hr, Hzero.
Qed.

(** *** Allocation *)

Lemma fresh_not_null (X : gset Z) : fresh ({[NULL]} ∪ X) ≠ NULL.
Proof. pose proof (is_fresh ({[NULL]} ∪ X)). set_solver. Qed.

Lemma malloc_null_iff s : (malloc s).1 = NULL ↔ malloc_fails s = true.
Proof.
  unfold malloc. simpl. destruct (malloc_fails s); [done |].
  split; [| done]. intros Hp. by destruct (fresh_not_null (w_live s)).
Qed.

Lemma report_null_run p s :
  report_null p s =
    (tt, World (w_live s) (w_addr s) (w_net s) (w_bcast s) (w_conmsg s)
               (w_zig s) (w_calls s)
               (w_out s ++ if decide (p = NULL) then [alloc_failed] else [])
               (w_oom s) (w_junk s) (w_ub s)).
Proof.
  unfold report_null. case_decide; [done |].
  rewrite app_nil_r. by destruct s.
Qed.

Lemma init_l2addr_154_addr_run x s :
  init_l2addr_154_addr x s
  = addr_made (default 0 (w_addr s !! x))
              (if w_addr s !! x is Some _ then false else true) s.
Proof.
  unfold init_l2addr_154_addr, addr_made, bind, report_null, store_addr,
    valid. simpl.
  destruct (malloc_fails s) eqn:Hf; simpl.
  - by destruct (w_addr s !! x).
  - pose proof (is_fresh ({[NULL]} ∪ w_live s)) as Hfresh.
    rewrite decide_False by set_solver. simpl.
    rewrite decide_True by set_solver. by rewrite app_nil_r.
Qed.

Lemma get_src_run l2 s :
  get_src l2 s
  = addr_made (srcaddr (zig_frame (w_zig s) (curframe_ (net_at s l2))))
              (if w_net s !! l2 is Some n then curframe_ n =? NULL else true)
              s.
Proof.
  unfold get_src, addr_made, bind, report_null, frame_at, store_addr, valid,
    net_at.
  simpl.
  destruct (malloc_fails s) eqn:Hf; simpl.
  - reflexivity.
  - pose proof (is_fresh ({[NULL]} ∪ w_live s)) as Hfresh.
    rewrite decide_False by set_solver. simpl.
    rewrite decide_True by set_solver. rewrite app_nil_r.
    unfold net_at. simpl.
    destruct (w_net s !! l2) as [n|]; simpl; [| done].
    by destruct (curframe_ n =? NULL).
Qed.

Lemma get_dst_run l2 s :
  get_dst l2 s
  = addr_made (dstaddr (zig_frame (w_zig s) (curframe_ (net_at s l2))))
              (if w_net s !! l2 is Some n then curframe_ n =? NULL else true)
              s.
Proof.
  unfold get_dst, addr_made, bind, report_null, frame_at, store_addr, valid,
    net_at.
  simpl.
  destruct (malloc_fails s) eqn:Hf; simpl.
  - reflexivity.
  - pose proof (is_fresh ({[NULL]} ∪ w_live s)) as Hfresh.
    rewrite decide_False by set_solver. simpl.
    rewrite decide_True by set_solver. rewrite app_nil_r.
    unfold net_at. simpl.
    destruct (w_net s !! l2) as [n|]; simpl; [| done].
    by destruct (curframe_ n =? NULL).
Qed.

(** What the model gives for [startL2_154], whichever of its three
    allocations fail.  Past a failed allocation of the [l2net_154] or of
    the broadcast address this is the world with [w_ub] set, which
    describes no run of the program. *)
Lemma startL2_154_run s a chan panid :
  let r := startL2_154 a chan panid s in
  r.1 = (malloc s).1
  ∧ w_out r.2 = w_out s ++ replicate (failures 3 s) alloc_failed
  ∧ w_calls r.2
    = w_calls s ++ [CsetAddr2 (default 0 (w_addr s !! a)); CsetChannel chan;
                    CsetPanid panid; CsetMsgbufsize 10; Cstart]
  ∧ w_addr r.2 !! w_bcast r.2 = Some (parse_addr "ff:ff" (fresh_buf s))
  ∧ w_net r.2 !! r.1
    = Some (L2net (default 0 (w_addr s !! a)) I154_MTU NULL).
Proof.
  intros r. subst r.
  unfold startL2_154, setBroasdcastAddr, failures. unfold bind.
  simpl. rewrite report_null_run. simpl.
  rewrite report_null_run. simpl.
  rewrite init_l2addr_154_char_run. simpl.
  unfold malloc_fails, net_at. simpl.
  destruct (w_oom s) as [|b1 [|b2 [|b3 o]]] eqn:Hoom; simpl.
  all: repeat match goal with b : bool |- _ => destruct b end; simpl.
  all: rewrite ?(decide_False _ _ (fresh_not_null _)); simpl.
  all: rewrite ?lookup_insert_eq; simpl.
  all: rewrite ?lookup_insert_eq; simpl.
  all: rewrite <- ?app_assoc; simpl; rewrite ?app_nil_r.
  all: done.
Qed.

(** The text ["ff:ff"] gives both bytes the value 255. *)
Lemma parse_addr_ffff (buf0 : list Z) :
  (2 ≤ I154_ADDRLEN)%nat → length buf0 = I154_ADDRLEN →
  parse_addr "ff:ff" buf0 = addr2_broadcast.
Proof.
  intros Hlen2 Hlen. unfold parse_addr, addr2_broadcast.
  clear ZL. destruct HD as [w alen mtu c16 ? ? ? ? ? ? ? ? ?]. simpl in *.
  destruct alen as [|[|k]]; try lia.
  destruct buf0 as [|b0 [|b1 rest]]; simpl in Hlen; try lia.
  reflexivity.
Qed.

(** C9: after [startL2_154], the object the global
    [l2addr_154_broadcast] points to, which [bcastaddr] returns, holds
    the value of the constant [addr2_broadcast] that [recv] compares the
    destination with; it is 0xffff as soon as [CONST16] of two bytes 0xff
    is that.  So [isEqualAddr] of an address with [bcastaddr ()] gives what
    the comparison with [addr2_broadcast] in [recv] gives. *)
Theorem startL2_154_broadcast s (own chan panid : Z) :
  (2 ≤ I154_ADDRLEN)%nat →
  let s' := (startL2_154 own chan panid s).2 in
  let b := (bcastaddr s').1 in
  b = w_bcast s'
  ∧ w_addr s' !! b = Some addr2_broadcast
  ∧ (CONST16 255 255 = 65535 → addr2_broadcast = 65535)
  ∧ ∀ x v, w_addr s' !! x = Some v →
      (isEqualAddr x b s').1 = (v =? addr2_broadcast).
Proof.
  intros Hlen2 s' b.
  assert (Hb : w_addr s' !! b = Some addr2_broadcast).
  { destruct (startL2_154_run s own chan panid) as (_ & _ & _ & Hb & _).
    unfold b, bcastaddr, s'. simpl. rewrite Hb.
    f_equal. apply parse_addr_ffff; [done | apply fresh_buf_length]. }
  split; [done |]. split; [done |]. split.
  - intros Hff. unfold addr2_broadcast. by rewrite Hff.
  - intros x v Hx. unfold isEqualAddr, bind.
    rewrite (load_addr_some _ _ _ Hx), (load_addr_some _ _ _ Hb). simpl.
    destruct (Z.eqb_spec v addr2_broadcast) as [Heq|Hne].
    + by apply bool_decide_eq_true.
    + by apply bool_decide_eq_false.
Qed.

End Properties.

(** ** The theorems on the concrete platform *)

(** The parser on four texts, the local array holding 0xaa bytes before:
    a full address; a character that is no digit, met by the loop; the
    same character after the second colon, where the loop has stopped;
    and a text with one field, whose second byte is never written. *)
Example parse_addr_examples :
  parse_addr "ff:ff" [170; 170] = 65535
  ∧ parse_addr "12:3g" [170; 170] = 0
  ∧ parse_addr "ab:cd:zz" [170; 170] = 52651
  ∧ parse_addr "ab" [170; 170] = 43691.
Proof. repeat split; vm_compute; reflexivity. Qed.

Lemma recv_classifies_witness :
  w_net node.2 !! node.1.2 = Some (L2net 13330 127 NULL)
  ∧ (recv node.1.2 node.2).1 = R_OK.
Proof.
  assert (Hnet : w_net node.2 !! node.1.2 = Some (L2net 13330 127 NULL))
    by (vm_compute; reflexivity).
  split; [exact Hnet |].
  assert (Hok : RECV_EMPTY ≠ RECV_OK) by discriminate.
  assert (Hwd : RECV_EMPTY ≠ RECV_WRONG_DEST) by discriminate.
  pose proof (recv_classifies node.2 node.1.2 _ Hnet Hok Hwd) as Hw.
  cbv zeta in Hw.
  destruct Hw as (_ & Hvalid & _); [vm_compute; discriminate |].
  apply Hvalid.
  - vm_compute. repeat split; discriminate.
  - left. vm_compute. reflexivity.
Defined.

Lemma maxpayload_mod_witness :
  w_net node.2 !! node.1.2 = Some (L2net 13330 127 NULL)
  ∧ maxpayload node.1.2 node.2 = (116, node.2).
Proof.
  assert (Hnet : w_net node.2 !! node.1.2 = Some (L2net 13330 127 NULL))
    by (vm_compute; reflexivity).
  split; [exact Hnet |].
  destruct (maxpayload_mod node.2 node.1.2 _ Hnet) as (_ & _ & Hrun & _).
  exact Hrun.
Defined.

Lemma send_calls_sendto_witness :
  w_net node.2 !! node.1.2 = Some (L2net 13330 127 NULL)
  ∧ w_addr node.2 !! node.1.1 = Some 13330
  ∧ w_calls (send node.1.2 node.1.1 777 50 node.2).2
    = w_calls node.2 ++ [Csendto 13330 777 50].
Proof.
  assert (Hnet : w_net node.2 !! node.1.2 = Some (L2net 13330 127 NULL))
    by (vm_compute; reflexivity).
  assert (Hdst : w_addr node.2 !! node.1.1 = Some 13330) by (vm_compute; reflexivity).
  split; [exact Hnet |]. split; [exact Hdst |].
  destruct (send_calls_sendto node.2 node.1.2 _ node.1.1 _ 777 50 Hnet Hdst)
    as (Hsent & _).
  apply Hsent. vm_compute. discriminate.
Defined.

Lemma copyAddr_isEqualAddr_witness :
  w_addr node.2 !! node.1.1 = Some 13330
  ∧ w_addr node.2 !! w_bcast node.2 = Some 65535
  ∧ (isEqualAddr node.1.1 (w_bcast node.2)
       (copyAddr node.1.1 (w_bcast node.2) node.2).2).1 = true.
Proof.
  assert (Hx : w_addr node.2 !! node.1.1 = Some 13330) by (vm_compute; reflexivity).
  assert (Hy : w_addr node.2 !! w_bcast node.2 = Some 65535) by (vm_compute; reflexivity).
  split; [exact Hx |]. split; [exact Hy |].
  destruct (copyAddr_isEqualAddr node.2 _ _ _ _ Hx Hy) as (_ & _ & Hcopy).
  cbv zeta in Hcopy. apply Hcopy.
Defined.

Lemma recv_replaces_curframe_witness :
  w_net node_polled.2 !! node_polled.1.2 = Some (L2net 13330 127 100)
  ∧ w_calls (recv node_polled.1.2 node_polled.2).2
    = w_calls node_polled.2 ++ [Cskip_received; Cget_received]
  ∧ w_net (recv node_polled.1.2 node_polled.2).2 !! node_polled.1.2
    = Some (L2net 13330 127 NULL).
Proof.
  assert (Hnet : w_net node_polled.2 !! node_polled.1.2
                 = Some (L2net 13330 127 100)) by (vm_compute; reflexivity).
  split; [exact Hnet |].
  pose proof (recv_replaces_curframe node_polled.2 node_polled.1.2 _ Hnet)
    as Hw.
  cbv zeta in Hw. destruct Hw as (Hcalls & Hcur & _).
  split; [exact Hcalls | exact Hcur].
Defined.

Lemma init_l2addr_154_char_invalid_witness :
  let r := init_l2addr_154_char "12:3g" (world0 [] []) in
  w_addr r.2 !! r.1 = Some 0.
Proof.
  destruct (init_l2addr_154_char_invalid (world0 [] []) "12:3" "" "g")
    as (_ & Hzero);
    [simpl; lia | | vm_compute; lia
    | discriminate | discriminate | reflexivity |].
  - repeat constructor; (by left) || (by right).
  - apply Hzero. reflexivity.
Defined.

Lemma startL2_154_broadcast_witness :
  let s' := (startL2_154 1 26 51966 (world0 [] [])).2 in
  w_addr s' !! (bcastaddr s').1 = Some addr2_broadcast
  ∧ addr2_broadcast = 65535.
Proof.
  assert (Hlen : (2 ≤ I154_ADDRLEN)%nat) by (simpl; lia).
  pose proof (startL2_154_broadcast (world0 [] []) 1 26 51966 Hlen) as Hw.
  cbv zeta in Hw. destruct Hw as (_ & Hb & Hval & _).
  split; [exact Hb | apply Hval; reflexivity].
Defined.

(** *** Where two claims fail as first written *)

(** C3 as first written, [maxpayload (l2) = mtu_ - 11] for every [l2],
    fails below an MTU of 11: after [setMTU (l2, 5)] the result is 65530
    on a 16-bit [size_t], not [5 - 11]. *)
Lemma maxpayload_small_mtu :
  w_net node_mtu5.2 !! node_mtu5.1.2 = Some (L2net 13330 5 NULL)
  ∧ (maxpayload node_mtu5.1.2 node_mtu5.2).1 = 65530
  ∧ (maxpayload node_mtu5.1.2 node_mtu5.2).1 ≠ 5 - 11.
Proof.
  split; [vm_compute; reflexivity |].
  split; vm_compute; [reflexivity | discriminate].
Qed.

(** C4 as first written says that with [mtu_ < 11], [send] calls [sendto]
    for every [len].  With an MTU of 5 on a 16-bit [size_t] the bound is
    65530: for [len = 65535], [send] returns false and calls nothing. *)
Lemma send_small_mtu_large_len :
  w_net node_mtu5.2 !! node_mtu5.1.2 = Some (L2net 13330 5 NULL)
  ∧ w_addr node_mtu5.2 !! node_mtu5.1.1 = Some 13330
  ∧ (send node_mtu5.1.2 node_mtu5.1.1 777 65535 node_mtu5.2).1 = false
  ∧ w_calls (send node_mtu5.1.2 node_mtu5.1.1 777 65535 node_mtu5.2).2
    = w_calls node_mtu5.2
  ∧ w_calls (send node_mtu5.1.2 node_mtu5.1.1 777 65535 node_mtu5.2).2
    ≠ w_calls node_mtu5.2 ++ [Csendto 13330 777 65535].
Proof.
  split; [vm_compute; reflexivity |].
  split; [vm_compute; reflexivity |].
  split; [vm_compute; reflexivity |].
  split; vm_compute; [reflexivity | discriminate].
Qed.
(** ** More on parsing an address *)

Section Parsing.
Context `{HD : Header} `{ZL : ZigMsg}.

Lemma xdigit_value_digit_of (c : Z) :
  isxdigit c = true → xdigit_value c = digit_of c ∧ 0 ≤ digit_of c < 16.
Proof.
  unfold isxdigit, isdigit, xdigit_value, digit_of, tolower, to_uint8.
  intros Hx.
  repeat (first
            [ progress unfold isdigit in *
            | match goal with
              | H : context [?a <=? ?b] |- _ => destruct (Z.leb_spec a b)
              | |- context [?a <=? ?b] => destruct (Z.leb_spec a b)
              end ]; cbn [andb orb] in *);
    try discriminate; try lia;
    (split; [rewrite Z.mod_small by lia; lia | lia]).
Qed.

(** Two accumulators that agree modulo 256 still agree after more
    digits. *)
Lemma hexval_from_mod (ds : list Z) (v : Z) :
  hexval_from (v mod 256) ds mod 256 = hexval_from v ds mod 256.
Proof.
  revert v. induction ds as [|c ds IH]; intros v; simpl.
  - apply Z.mod_mod. lia.
  - rewrite <- (IH (v mod 256 * 16 + digit_of c)), <- (IH (v * 16 + digit_of c)).
    f_equal. f_equal.
    rewrite Z.add_mod, Z.mul_mod_idemp_l by lia.
    by rewrite <- Z.add_mod by lia.
Qed.

(** The loop over a run of hexadecimal digits, before the array is full:
    only [b] moves, to the value read so far modulo 256. *)
Lemma parse_loop_digits (d rest : string) (i : nat) (b : Z) (buf : list Z) :
  Forall (λ ch, isxdigit ch = true) (chars d) →
  (i < I154_ADDRLEN)%nat →
  0 ≤ b < 256 →
  parse_loop (d +:+ rest) i b buf
  = parse_loop rest i (hexval_from b (chars d) mod 256) buf.
Proof.
  revert b. induction d as [|ch d IH]; intros b Hd Hi Hb; simpl.
  - by rewrite Z.mod_small.
  - apply Forall_cons in Hd as [Hch Hd].
    assert (Hlt : (i <? I154_ADDRLEN)%nat = true) by by apply Nat.ltb_lt.
    assert (Hnz : (char_code ch =? 0) = false).
    { apply Z.eqb_neq. intros Hz. by rewrite Hz in Hch. }
    assert (H58 : (char_code ch =? 58) = false).
    { apply Z.eqb_neq. intros Hz. by rewrite Hz in Hch. }
    rewrite Hnz, Hlt, H58, Hch. simpl.
    destruct (xdigit_value_digit_of _ Hch) as [-> Hdig].
    rewrite IH; [| done | done | apply Z.mod_pos_bound; lia].
    unfold to_uint8. rewrite Z.shiftl_mul_pow2 by lia.
    change (2 ^ 4) with 16. change (2 ^ 8) with 256.
    by rewrite hexval_from_mod.
Qed.
Lemma parse_loop_digits_end (d : string) (i : nat) (b : Z) (buf : list Z) :
  Forall (λ ch, isxdigit ch = true) (chars d) →
  (i < I154_ADDRLEN)%nat →
  0 ≤ b < 256 →
  parse_loop d i b buf = (i, hexval_from b (chars d) mod 256, buf).
Proof.
  intros Hd Hi Hb.
  assert (Hnil : d +:+ "" = d).
  { clear. induction d as [|c d IH]; [done |].
    change (String c (d +:+ "") = String c d). by rewrite IH. }
  pose proof (parse_loop_digits d "" i b buf Hd Hi Hb) as Hrun.
  by rewrite Hnil in Hrun.
Qed.

Lemma fresh_buf_lookup s (j : nat) :
  (j < I154_ADDRLEN)%nat → fresh_buf s !!! j = w_junk s j.
Proof.
  intros Hj. apply list_lookup_total_correct. unfold fresh_buf.
  rewrite list_lookup_fmap, lookup_seq_lt by done. done.
Qed.

(** X1: a text of two fields of hexadecimal digits with a colon between
    them gives the address whose bytes are the two fields' values modulo
    256 (of a longer field, the last two digits count), whatever the
    local array held. *)
Theorem init_l2addr_154_char_two_fields s (d1 d2 : string) :
  (2 ≤ I154_ADDRLEN)%nat →
  Forall (λ ch, isxdigit ch = true) (chars d1) →
  Forall (λ ch, isxdigit ch = true) (chars d2) →
  let r := init_l2addr_154_char (d1 +:+ String ":" d2) s in
  w_addr r.2 !! r.1
  = Some (to_addr2 (CONST16 (hexval (chars d1) mod 256)
                            (hexval (chars d2) mod 256))).
Proof.
  intros Hlen Hd1 Hd2 r. unfold r.
  rewrite init_l2addr_154_char_run. simpl. rewrite lookup_insert_eq.
  f_equal. unfold parse_addr.
  pose proof (fresh_buf_length s) as Hbuf.
  rewrite parse_loop_digits by (done || lia).
  assert (Hlt0 : (0 <? I154_ADDRLEN)%nat = true) by (apply Nat.ltb_lt; lia).
  assert (Hlt1 : (1 <? I154_ADDRLEN)%nat = true) by (apply Nat.ltb_lt; lia).
  simpl. rewrite Hlt0. simpl.
  rewrite parse_loop_digits_end by (done || lia).
  rewrite Hlt1.
  rewrite list_lookup_total_insert_ne by done.
  rewrite !list_lookup_total_insert_eq by (rewrite ?length_insert; lia).
  done.
Qed.

(** X2: a text of hexadecimal digits with no colon (the empty text
    included) sets the first byte only; the second byte is what the
    uninitialised local array held. *)
Theorem init_l2addr_154_char_one_field s (d : string) :
  (2 ≤ I154_ADDRLEN)%nat →
  Forall (λ ch, isxdigit ch = true) (chars d) →
  let r := init_l2addr_154_char d s in
  w_addr r.2 !! r.1
  = Some (to_addr2 (CONST16 (hexval (chars d) mod 256) (w_junk s 1%nat))).
Proof.
  intros Hlen Hd r. unfold r.
  rewrite init_l2addr_154_char_run. simpl. rewrite lookup_insert_eq.
  f_equal. unfold parse_addr.
  pose proof (fresh_buf_length s) as Hbuf.
  rewrite parse_loop_digits_end by (done || lia).
  assert (Hlt0 : (0 <? I154_ADDRLEN)%nat = true) by (apply Nat.ltb_lt; lia).
  rewrite Hlt0.
  rewrite list_lookup_total_insert_eq by lia.
  rewrite list_lookup_total_insert_ne by done.
  by rewrite fresh_buf_lookup by lia.
Qed.

(** Once [I154_ADDRLEN] colons are read the loop stops: what follows is
    not looked at. *)
Lemma parse_loop_full (t rest : string) (i : nat) (b : Z) (buf : list Z) :
  Forall (λ ch, ch = 58 ∨ isxdigit ch = true) (chars t) →
  (i + colons t = I154_ADDRLEN)%nat →
  parse_loop (t +:+ rest) i b buf = parse_loop t i b buf.
Proof.
  revert i b buf.
  induction t as [|ch t IH]; intros i b buf Ht Hi; unfold colons in *;
    simpl in *.
  - assert (Hge : (i <? I154_ADDRLEN)%nat = false) by (apply Nat.ltb_ge; lia).
    destruct rest as [|c rest]; simpl; [done |].
    by rewrite Hge, orb_true_r.
  - apply Forall_cons in Ht as [Hch Ht]. rewrite filter_cons in Hi.
    destruct ((char_code ch =? 0) || negb (i <? I154_ADDRLEN)%nat) eqn:Hstop;
      [done |].
    apply orb_false_iff in Hstop as [_ Hlt].
    destruct (char_code ch =? 58) eqn:H58.
    + apply Z.eqb_eq in H58. rewrite decide_True in Hi by done.
      simpl in Hi. apply IH; [done | lia].
    + apply Z.eqb_neq in H58. rewrite decide_False in Hi by done.
      destruct Hch as [?|Hx]; [done |]. rewrite Hx. by apply IH.
Qed.

(** X3: in a text of hexadecimal digits and colons, everything after the
    colon number [I154_ADDRLEN] is ignored, valid or not. *)
Theorem init_l2addr_154_char_ignores_rest s (t rest : string) :
  Forall (λ ch, ch = 58 ∨ isxdigit ch = true) (chars t) →
  colons t = I154_ADDRLEN →
  init_l2addr_154_char (t +:+ rest) s = init_l2addr_154_char t s.
Proof.
  intros Ht Hcol. rewrite !init_l2addr_154_char_run.
  unfold parse_addr. by rewrite parse_loop_full.
Qed.

Lemma lower_char_code (c : ascii) :
  let k := char_code c in
  char_code (lower_char c) = tolower k
  ∧ (tolower k =? 0) = (k =? 0)
  ∧ (tolower k =? 58) = (k =? 58)
  ∧ isxdigit (tolower k) = isxdigit k
  ∧ xdigit_value (tolower k) = xdigit_value k.
Proof.
  destruct c as [[] [] [] [] [] [] [] []]; vm_compute; done.
Qed.

Lemma parse_loop_lower (a : string) (i : nat) (b : Z) (buf : list Z) :
  parse_loop (lower a) i b buf = parse_loop a i b buf.
Proof.
  revert i b buf. induction a as [|c a IH]; intros i b buf; [done |].
  simpl. destruct (lower_char_code c) as (-> & -> & -> & -> & ->).
  by rewrite !IH.
Qed.

(** X4: the text is read without regard to the case of its letters. *)
Theorem init_l2addr_154_char_lower s (a : string) :
  init_l2addr_154_char (lower a) s = init_l2addr_154_char a s.
Proof.
  rewrite !init_l2addr_154_char_run. unfold parse_addr.
  by rewrite parse_loop_lower.
Qed.

End Parsing.

(** ** Running a sequence step by step *)

Section Steps.
Context `{ZL : ZigMsg}.

(** One step of a sequence, when the first command's run is known. *)
Lemma bind_run {A B} (c : M A) (k : A → M B) s x s' :
  c s = (x, s') → bind c k s = k x s'.
Proof. intros Hc. unfold bind. by rewrite Hc. Qed.

End Steps.

Ltac run_step tac :=
  erewrite bind_run; [cbv beta | tac; simpl; reflexivity].

(** ** More on the objects *)

Section Objects.
Context `{HD : Header} `{ZL : ZigMsg}.

Lemma startL2_154_ok s (a chan panid v : Z) :
  failures 3 s = 0%nat →
  w_addr s !! a = Some v →
  let p1 := fresh ({[NULL]} ∪ w_live s) in
  let p2 := fresh ({[NULL]} ∪ ({[p1]} ∪ w_live s)) in
  let p3 := fresh ({[NULL]} ∪ ({[p2]} ∪ ({[p1]} ∪ w_live s))) in
  startL2_154 a chan panid s =
    (p1,
     World ({[p3]} ∪ ({[p2]} ∪ ({[p1]} ∪ w_live s)))
           (<[p3 := parse_addr "ff:ff" (fresh_buf s)]> (w_addr s))
           (<[p1 := L2net v I154_MTU NULL]> (w_net s))
           p3 p2
           (zig_start (zig_setMsgbufsize 10 (zig_setPanid panid
              (zig_setChannel chan (zig_setAddr2 v (w_zig s))))))
           (w_calls s ++ [CsetAddr2 v; CsetChannel chan; CsetPanid panid;
                          CsetMsgbufsize 10; Cstart])
           (w_out s) (tail (tail (tail (w_oom s)))) (w_junk s) (w_ub s)).
Proof.
  intros Hfail Ha p1 p2 p3.
  assert (Hp1 : p1 ≠ NULL) by apply fresh_not_null.
  assert (Hp2 : p2 ≠ NULL) by apply fresh_not_null.
  assert (Hp3 : p3 ≠ NULL) by apply fresh_not_null.
  assert (Hm : match w_oom s with true :: _ => true | _ => false end = false
               ∧ match tail (w_oom s) with true :: _ => true | _ => false end
                 = false
               ∧ match tail (tail (w_oom s)) with
                 | true :: _ => true | _ => false end = false).
  { unfold failures in Hfail.
    destruct (w_oom s) as [|[] [|[] [|[] o]]]; simpl in *; done. }
  destruct Hm as (Hm1 & Hm2 & Hm3).
  unfold startL2_154.
  run_step ltac:(unfold malloc, malloc_fails; rewrite Hm1).
  fold p1.
  run_step ltac:(rewrite report_null_run, decide_False by done).
  run_step ltac:(unfold load_addr; simpl; rewrite Ha).
  run_step ltac:(unfold set_myaddr, store_net, net_at, valid; simpl;
                 rewrite decide_True by (split; [done | set_solver])).
  run_step ltac:(unfold malloc, malloc_fails; simpl; rewrite Hm2).
  fold p2.
  run_step ltac:(unfold set_conmsg).
  run_step ltac:(rewrite report_null_run, decide_False by done).
  run_step ltac:(unfold load_net, net_at; simpl; rewrite lookup_insert_eq).
  simpl myaddr_.
  run_step ltac:(unfold setAddr2, extern).
  run_step ltac:(unfold setChannel, extern).
  run_step ltac:(unfold setPanid, extern).
  run_step ltac:(unfold setMsgbufsize, extern).
  run_step ltac:(unfold setBroasdcastAddr;
                 erewrite bind_run;
                 [| rewrite init_l2addr_154_char_run;
                    unfold malloc, malloc_fails, fresh_buf; simpl;
                    rewrite Hm3; reflexivity];
                 unfold set_bcast).
  fold p3.
  run_step ltac:(unfold set_mtu, store_net, net_at, valid; simpl;
                 rewrite lookup_insert_eq;
                 rewrite decide_True by (split; [done | set_solver])).
  run_step ltac:(unfold set_curframe, store_net, net_at, valid; simpl;
                 rewrite lookup_insert_eq;
                 rewrite decide_True by (split; [done | set_solver])).
  run_step ltac:(unfold start, extern).
  unfold ret. f_equal.
  rewrite !insert_insert_eq, <- !app_assoc, !app_nil_r. simpl.
  done.
Qed.

(** X7: when its three allocations succeed and [a] is an address object,
    [startL2_154] returns a new [l2net_154] holding the address of [a],
    the MTU [I154_MTU] and no current frame.  The three blocks it
    allocates (the [l2net_154], [conmsg] and the broadcast address) are
    distinct, not null and were not live; nothing is printed, nothing
    undefined is done, and the address objects that were there are as
    before. *)
Theorem startL2_154_fresh s (a chan panid v : Z) :
  failures 3 s = 0%nat →
  w_addr s !! a = Some v →
  (2 ≤ I154_ADDRLEN)%nat →
  dom (w_addr s) ⊆ w_live s →
  let r := startL2_154 a chan panid s in
  let blocks := [r.1; w_conmsg r.2; w_bcast r.2] in
  NoDup blocks
  ∧ (∀ p, p ∈ blocks → p ≠ NULL ∧ p ∉ w_live s)
  ∧ w_live r.2 = list_to_set blocks ∪ w_live s
  ∧ w_net r.2 = <[r.1 := L2net v I154_MTU NULL]> (w_net s)
  ∧ w_addr r.2 = <[w_bcast r.2 := addr2_broadcast]> (w_addr s)
  ∧ (∀ x vx, w_addr s !! x = Some vx → w_addr r.2 !! x = Some vx)
  ∧ w_out r.2 = w_out s
  ∧ w_ub r.2 = w_ub s.
Proof.
  intros Hfail Ha Hlen Hdom r blocks. unfold blocks, r.
  rewrite (startL2_154_ok s a chan panid v Hfail Ha). simpl.
  set (p1 := fresh ({[NULL]} ∪ w_live s)).
  set (p2 := fresh ({[NULL]} ∪ ({[p1]} ∪ w_live s))).
  set (p3 := fresh ({[NULL]} ∪ ({[p2]} ∪ ({[p1]} ∪ w_live s)))).
  pose proof (is_fresh ({[NULL]} ∪ w_live s)) as H1.
  pose proof (is_fresh ({[NULL]} ∪ ({[p1]} ∪ w_live s))) as H2.
  pose proof (is_fresh ({[NULL]} ∪ ({[p2]} ∪ ({[p1]} ∪ w_live s)))) as H3.
  fold p1 in H1, H2, H3. fold p2 in H2, H3. fold p3 in H3.
  rewrite (parse_addr_ffff _ Hlen (fresh_buf_length s)).
  split; [| split; [| split; [| split; [| split; [| split]]]]]; try done.
  - repeat constructor; set_solver.
  - intros p Hp. set_solver.
  - set_solver.
  - intros x vx Hx.
    assert (x ∈ w_live s) by (apply Hdom, elem_of_dom; eauto).
    rewrite lookup_insert_ne; [done | set_solver].
Qed.

(** What the three functions that build one [l2addr_154] do when the
    allocation succeeds in a world whose objects are in live blocks. *)
Lemma addr_made_fresh (v : Z) (bad : bool) s :
  malloc_fails s = false →
  dom (w_addr s) ⊆ w_live s →
  let r := addr_made v bad s in
  r.1 ≠ NULL ∧ (r.1 ∉ w_live s) ∧ w_addr s !! (r.1) = None
  ∧ w_live r.2 = {[r.1]} ∪ w_live s
  ∧ w_addr r.2 = <[r.1 := v]> (w_addr s)
  ∧ w_net r.2 = w_net s
  ∧ w_out r.2 = w_out s
  ∧ w_ub r.2 = (if bad then true else w_ub s).
Proof.
  intros Hok Hdom. unfold addr_made, malloc. simpl. rewrite Hok. simpl.
  pose proof (is_fresh ({[NULL]} ∪ w_live s)) as Hfresh.
  repeat split; try done; try set_solver.
  - apply not_elem_of_dom. set_solver.
  - by rewrite app_nil_r.
Qed.

Lemma isEqualAddr_run s (x y vx vy : Z) :
  w_addr s !! x = Some vx →
  w_addr s !! y = Some vy →
  isEqualAddr x y s = (bool_decide (vx = vy), s).
Proof.
  intros Hx Hy. unfold isEqualAddr, bind.
  by rewrite (load_addr_some _ _ _ Hx), (load_addr_some _ _ _ Hy).
Qed.

(** X5: when the allocation succeeds, [init_l2addr_154_addr (x)] returns
    a new object, in a block that was not live, with the address of [x];
    [isEqualAddr] of the two is true; [x] and the other objects are as
    before, and stay so when the copy is written to. *)
Theorem init_l2addr_154_addr_copy s (x v : Z) :
  malloc_fails s = false →
  w_addr s !! x = Some v →
  dom (w_addr s) ⊆ w_live s →
  let r := init_l2addr_154_addr x s in
  r.1 ≠ NULL ∧ (r.1 ∉ w_live s) ∧ r.1 ≠ x
  ∧ w_addr r.2 = <[r.1 := v]> (w_addr s)
  ∧ w_ub r.2 = w_ub s
  ∧ (isEqualAddr r.1 x r.2).1 = true
  ∧ (∀ y, w_addr ((copyAddr r.1 y r.2).2) !! x = Some v).
Proof.
  intros Hok Hx Hdom r. unfold r.
  rewrite init_l2addr_154_addr_run, Hx.
  change (addr_made _ _ s) with (addr_made v false s).
  destruct (addr_made_fresh v false s Hok Hdom)
    as (Hnull & Hlive & Hnone & _ & Haddr & _ & _ & Hub).
  set (m := addr_made v false s) in *.
  assert (Hne : m.1 ≠ x).
  { intros Heq. rewrite Heq in Hnone. congruence. }
  assert (Hx' : w_addr m.2 !! x = Some v).
  { rewrite Haddr. by rewrite lookup_insert_ne. }
  assert (Hp' : w_addr m.2 !! m.1 = Some v).
  { rewrite Haddr. apply lookup_insert_eq. }
  repeat split; try done.
  - rewrite (isEqualAddr_run _ _ _ _ _ Hp' Hx'). simpl.
    by apply bool_decide_eq_true.
  - intros y. unfold copyAddr, bind, load_addr, store_addr. simpl.
    by rewrite lookup_insert_ne.
Qed.

(** X6: on address objects [isEqualAddr] is reflexive, symmetric and
    transitive, and it changes nothing. *)
Theorem isEqualAddr_equivalence s (x y z vx vy vz : Z) :
  w_addr s !! x = Some vx →
  w_addr s !! y = Some vy →
  w_addr s !! z = Some vz →
  isEqualAddr x x s = (true, s)
  ∧ (isEqualAddr x y s).1 = (isEqualAddr y x s).1
  ∧ ((isEqualAddr x y s).1 = true → (isEqualAddr y z s).1 = true →
     (isEqualAddr x z s).1 = true)
  ∧ (isEqualAddr x y s).2 = s.
Proof.
  intros Hx Hy Hz.
  rewrite (isEqualAddr_run s x x _ _ Hx Hx), (isEqualAddr_run s x y _ _ Hx Hy),
    (isEqualAddr_run s y x _ _ Hy Hx), (isEqualAddr_run s y z _ _ Hy Hz),
    (isEqualAddr_run s x z _ _ Hx Hz). simpl.
  repeat split.
  - f_equal. by apply bool_decide_eq_true.
  - apply bool_decide_ext. split; congruence.
  - rewrite !bool_decide_eq_true. intros. congruence.
Qed.

(** X8: [getMTU] returns what [setMTU] stored, whatever the value;
    [setMTU] changes the MTU of that [l2net_154] and nothing else, and
    [maxpayload] then follows the new MTU. *)
Theorem setMTU_getMTU s (l2 m : Z) (n : l2net_154) :
  w_net s !! l2 = Some n →
  let s' := (setMTU l2 m s).2 in
  getMTU l2 s' = (m, s')
  ∧ w_net s' = <[l2 := L2net (myaddr_ n) m (curframe_ n)]> (w_net s)
  ∧ w_addr s' = w_addr s ∧ w_calls s' = w_calls s
  ∧ (maxpayload l2 s').1 = (m - 11) mod 2 ^ size_t_bits
  ∧ ∀ m', (getMTU l2 (setMTU l2 m' s').2).1 = m'.
Proof.
  intros Hn s'.
  assert (Hnet : w_net s' = <[l2 := L2net (myaddr_ n) m (curframe_ n)]>
                              (w_net s)).
  { unfold s', setMTU, set_mtu, store_net, net_at. simpl. by rewrite Hn. }
  assert (Hl2 : w_net s' !! l2 = Some (L2net (myaddr_ n) m (curframe_ n))).
  { rewrite Hnet. apply lookup_insert_eq. }
  repeat split; try done.
  - unfold getMTU, bind. by rewrite (load_net_some _ _ _ Hl2).
  - unfold maxpayload, bind. by rewrite (load_net_some _ _ _ Hl2).
  - intros m'. unfold getMTU, setMTU, set_mtu, store_net, bind, load_net,
      net_at. simpl. by rewrite lookup_insert_eq.
Qed.

(** X9: [send] hands a frame to [sendto] exactly when its length is at
    most what [maxpayload] reports for the same [l2net_154]; a longer one
    is refused with false, and nothing is called or changed. *)
Theorem send_iff_maxpayload s (l2 dest d data len : Z) (n : l2net_154) :
  w_net s !! l2 = Some n →
  w_addr s !! dest = Some d →
  (len ≤ (maxpayload l2 s).1 →
   send l2 dest data len s = sendto d data len s)
  ∧ ((maxpayload l2 s).1 < len → send l2 dest data len s = (false, s)).
Proof.
  intros Hn Hd. rewrite (send_run s l2 n dest d data len Hn Hd).
  unfold maxpayload, bind. rewrite (load_net_some _ _ _ Hn). simpl.
  change (to_size_t (mtu_ n - (I154_SIZE_HEADER + I154_SIZE_FCS)))
    with ((mtu_ n - 11) mod 2 ^ size_t_bits).
  split; intros Hlen.
  - apply Z.leb_le in Hlen. by rewrite Hlen.
  - apply Z.leb_gt in Hlen. by rewrite Hlen.
Qed.

End Objects.

(** ** More on receiving *)

Section Receiving.
Context `{HD : Header} `{ZL : ZigMsg}.

(** X10: of two calls to [recv] in a row, the second releases with
    [skip_received] the frame the first one got, and only then: it calls
    [skip_received] exactly when the first call's [get_received] returned
    a frame.  The own address and the MTU go through both calls. *)
Theorem recv_twice s (l2 : Z) (n : l2net_154) :
  w_net s !! l2 = Some n →
  let s1 := (recv l2 s).2 in
  let p1 := curframe_ (net_at s1 l2) in
  let s2 := (recv l2 s1).2 in
  w_calls s2 = w_calls s1 ++ (if decide (p1 ≠ NULL)
                              then [Cskip_received; Cget_received]
                              else [Cget_received])
  ∧ w_zig s2
    = (zig_get_received (if decide (p1 ≠ NULL)
                         then zig_skip_received (w_zig s1)
                         else w_zig s1)).2
  ∧ myaddr_ (net_at s2 l2) = myaddr_ n
  ∧ mtu_ (net_at s2 l2) = mtu_ n.
Proof.
  intros Hn s1 p1 s2.
  assert (Hn1 : w_net s1 !! l2 = Some (L2net (myaddr_ n) (mtu_ n) p1)).
  { unfold p1, net_at, s1. rewrite (recv_run s l2 n Hn). simpl.
    by rewrite lookup_insert_eq. }
  unfold s2. rewrite (recv_run s1 l2 _ Hn1). simpl.
  unfold net_at. simpl. by rewrite lookup_insert_eq.
Qed.

(** X11: after a [startL2_154] whose three allocations succeeded, the
    first [recv] releases nothing: the calls made to the library since
    before [startL2_154] are the five of [startL2_154] and one
    [get_received], and nothing undefined is done. *)
Theorem startL2_154_then_recv s (a chan panid v : Z) :
  failures 3 s = 0%nat →
  w_addr s !! a = Some v →
  let r := startL2_154 a chan panid s in
  r.1 ≠ NULL
  ∧ w_calls (recv r.1 r.2).2
    = w_calls s ++ [CsetAddr2 v; CsetChannel chan; CsetPanid panid;
                    CsetMsgbufsize 10; Cstart; Cget_received]
  ∧ w_ub (recv r.1 r.2).2 = w_ub s.
Proof.
  intros Hfail Ha r.
  pose proof (startL2_154_ok s a chan panid v Hfail Ha) as Hrun.
  cbv zeta in Hrun. unfold r. rewrite Hrun. cbn [fst snd].
  set (p1 := fresh ({[NULL]} ∪ w_live s)).
  assert (Hp1 : p1 ≠ NULL) by apply fresh_not_null.
  split; [done |].
  erewrite recv_run by (cbn [w_net]; apply lookup_insert_eq).
  cbn [snd w_calls w_ub curframe_ w_live].
  rewrite decide_False by (intros Hn; by apply Hn).
  rewrite decide_True by (split; [done | set_solver]).
  by rewrite <- app_assoc.
Qed.

Lemma frame_at_held (p : Z) s :
  p ≠ NULL → frame_at p s = (zig_frame (w_zig s) p, s).
Proof.
  intros Hp. unfold frame_at. apply Z.eqb_neq in Hp. rewrite Hp.
  by destruct s.
Qed.

(** X12: after a [recv] that got a frame, the accessors read the frame
    whose pointer that call stored: [get_payload] (for every offset) and
    [get_paylen] return its payload pointer and length and change
    nothing, and the objects [get_src] and [get_dst] return hold its
    source and destination.  After a [recv] that got no frame,
    [get_payload] and [get_paylen] read through a null pointer. *)
Theorem recv_then_accessors s (l2 offset : Z) (n : l2net_154) :
  w_net s !! l2 = Some n →
  let s1 := (recv l2 s).2 in
  let p := curframe_ (net_at s1 l2) in
  let f := zig_frame (w_zig s1) p in
  (p ≠ NULL →
   get_payload l2 offset s1 = (payload f, s1)
   ∧ get_paylen l2 s1 = (paylen f, s1)
   ∧ w_addr (get_src l2 s1).2 !! (get_src l2 s1).1 = Some (srcaddr f)
   ∧ w_addr (get_dst l2 s1).2 !! (get_dst l2 s1).1 = Some (dstaddr f))
  ∧ (p = NULL →
     w_ub (get_payload l2 offset s1).2 = true
     ∧ w_ub (get_paylen l2 s1).2 = true).
Proof.
  intros Hn s1 p f.
  assert (Hn1 : w_net s1 !! l2 = Some (net_at s1 l2)).
  { unfold net_at, s1. rewrite (recv_run s l2 n Hn). simpl.
    by rewrite lookup_insert_eq. }
  split.
  - intros Hp. split; [| split; [| split]].
    + unfold get_payload.
      erewrite bind_run by (apply load_net_some; exact Hn1). cbv beta.
      erewrite bind_run by (apply frame_at_held; exact Hp). done.
    + unfold get_paylen.
      erewrite bind_run by (apply load_net_some; exact Hn1). cbv beta.
      erewrite bind_run by (apply frame_at_held; exact Hp). done.
    + rewrite get_src_run. unfold addr_made. simpl.
      by rewrite lookup_insert_eq.
    + rewrite get_dst_run. unfold addr_made. simpl.
      by rewrite lookup_insert_eq.
  - intros Hp. split.
    + unfold get_payload.
      erewrite bind_run by (apply load_net_some; exact Hn1). cbv beta.
      fold p. rewrite Hp. reflexivity.
    + unfold get_paylen.
      erewrite bind_run by (apply load_net_some; exact Hn1). cbv beta.
      fold p. rewrite Hp. reflexivity.
Qed.

(** X13: what [recv] returns agrees with the destination [get_dst] then
    gives: after [RECV_OK] the destination object holds the own address
    or the broadcast address, after [RECV_WRONG_DEST] it holds neither. *)
Theorem recv_then_get_dst s (l2 : Z) (n : l2net_154) :
  w_net s !! l2 = Some n →
  RECV_EMPTY ≠ RECV_OK →
  RECV_EMPTY ≠ RECV_WRONG_DEST →
  RECV_OK ≠ RECV_WRONG_DEST →
  let s1 := (recv l2 s).2 in
  let d := (get_dst l2 s1).1 in
  let s2 := (get_dst l2 s1).2 in
  ((recv l2 s).1 = RECV_OK →
   w_addr s2 !! d = Some (myaddr_ n) ∨ w_addr s2 !! d = Some addr2_broadcast)
  ∧ ((recv l2 s).1 = RECV_WRONG_DEST →
     w_addr s2 !! d ≠ Some (myaddr_ n)
     ∧ w_addr s2 !! d ≠ Some addr2_broadcast).
Proof.
  intros Hn Hok Hwd Hne s1 d s2.
  assert (Hd : w_addr s2 !! d
               = Some (dstaddr (zig_frame (w_zig s1)
                                          (curframe_ (net_at s1 l2))))).
  { unfold d, s2. rewrite get_dst_run. unfold addr_made. simpl.
    by rewrite lookup_insert_eq. }
  rewrite Hd. clear Hd d s2. unfold s1.
  rewrite (recv_run s l2 n Hn). unfold net_at. simpl.
  rewrite lookup_insert_eq. simpl.
  unfold recv_status_of.
  destruct (negb _ && frame_checks _); [| by split].
  set (dst := dstaddr _).
  destruct (Z.eqb_spec dst (myaddr_ n)) as [Hown|Hown];
    destruct (Z.eqb_spec dst addr2_broadcast) as [Hbc|Hbc]; simpl;
    split; intros Hr; try done;
    try (by left; f_equal); try (by right; f_equal).
  split; intros [=]; done.
Qed.

End Receiving.

(** ** Freeing *)

Section Freeing.
Context `{HD : Header} `{ZL : ZigMsg}.

(** Freeing the object just made leaves the heap as it was. *)
Lemma addr_made_then_free (v : Z) (bad : bool) s :
  malloc_fails s = false →
  dom (w_addr s) ⊆ w_live s →
  dom (w_net s) ⊆ w_live s →
  let r := addr_made v bad s in
  let s' := (freel2addr_154 r.1 r.2).2 in
  w_live s' = w_live s ∧ w_addr s' = w_addr s ∧ w_net s' = w_net s
  ∧ w_ub s' = (if bad then true else w_ub s).
Proof.
  intros Hok Hda Hdn.
  pose proof (addr_made_fresh v bad s Hok Hda) as Hf.
  cbv zeta in Hf |- *.
  destruct (addr_made v bad s) as [p s1]. simpl in Hf |- *.
  destruct Hf as (Hnull & Hlive & Hnone & Hl & Ha & Hnet & _ & Hub).
  unfold freel2addr_154, free.
  rewrite decide_False by done. simpl.
  rewrite Hl, Ha, Hnet, Hub.
  split; [set_solver |]. split; [| split].
  - rewrite delete_insert_eq. by apply delete_id.
  - apply delete_id, not_elem_of_dom. set_solver.
  - rewrite decide_True by set_solver. done.
Qed.

(** X14: an address object made by [init_l2addr_154_addr], [get_src] or
    [get_dst] (a frame being held) and then given to [freel2addr_154]
    leaves no trace: the live blocks and the objects are as before the
    two calls. *)
Theorem make_then_free s (x l2 v : Z) (n : l2net_154) :
  malloc_fails s = false →
  w_addr s !! x = Some v →
  w_net s !! l2 = Some n →
  curframe_ n ≠ NULL →
  dom (w_addr s) ⊆ w_live s →
  dom (w_net s) ⊆ w_live s →
  let same (r : Z * world) :=
    let s' := (freel2addr_154 r.1 r.2).2 in
    w_live s' = w_live s ∧ w_addr s' = w_addr s ∧ w_net s' = w_net s
    ∧ w_ub s' = w_ub s in
  same (init_l2addr_154_addr x s) ∧ same (get_src l2 s) ∧ same (get_dst l2 s).
Proof.
  intros Hok Hx Hn Hheld Hda Hdn same. unfold same.
  rewrite init_l2addr_154_addr_run, get_src_run, get_dst_run, Hx, Hn.
  apply Z.eqb_neq in Hheld. rewrite Hheld.
  split; [| split]; by apply addr_made_then_free.
Qed.

(** X15: the object [bcastaddr] returns is not to be freed: after
    [freel2addr_154 (bcastaddr ())] the global still holds the pointer,
    the object is gone, and comparing any address with [bcastaddr ()] is
    undefined. *)
Theorem free_bcastaddr_dangles s (a chan panid v x : Z) :
  failures 3 s = 0%nat →
  w_addr s !! a = Some v →
  let s1 := (startL2_154 a chan panid s).2 in
  let b := (bcastaddr s1).1 in
  let s2 := (freel2addr_154 b s1).2 in
  (bcastaddr s2).1 = b
  ∧ b ≠ NULL
  ∧ w_addr s2 !! b = None
  ∧ w_ub (isEqualAddr x b s2).2 = true.
Proof.
  intros Hfail Ha s1 b s2. unfold s2, b, s1.
  rewrite (startL2_154_ok s a chan panid v Hfail Ha). simpl.
  set (p3 := fresh _).
  assert (Hp3 : p3 ≠ NULL) by apply fresh_not_null.
  unfold freel2addr_154, free. rewrite decide_False by done. simpl.
  split; [done |]. split; [done |]. split.
  - apply lookup_delete_eq.
  - unfold isEqualAddr, bind, load_addr. simpl.
    by rewrite lookup_delete_eq.
Qed.

End Freeing.

(** ** Printing *)

Section PrintingProperties.
Context `{HD : Header} `{ZL : ZigMsg}.
Variables (BYTE_LOW BYTE_HIGH : Z → Z).
Variable rawframe : zig → Z → Z → Z.

Lemma hex_digit_code (d : Z) :
  0 ≤ d < 16 →
  isxdigit (char_code (hex_digit d)) = true ∧ char_code (hex_digit d) ≠ 58.
Proof.
  intros Hd.
  assert (Hcase : d = 0 ∨ d = 1 ∨ d = 2 ∨ d = 3 ∨ d = 4 ∨ d = 5 ∨ d = 6
                  ∨ d = 7 ∨ d = 8 ∨ d = 9 ∨ d = 10 ∨ d = 11 ∨ d = 12
                  ∨ d = 13 ∨ d = 14 ∨ d = 15) by lia.
  repeat destruct Hcase as [->|Hcase]; try subst d; by vm_compute.
Qed.

(** [%x] writes hexadecimal digits only, at least one. *)
Lemma hex_digits_chars (fuel : nat) (v : Z) (acc : string) :
  Forall (λ ch, isxdigit ch = true ∧ ch ≠ 58) (chars acc) →
  Forall (λ ch, isxdigit ch = true ∧ ch ≠ 58) (chars (hex_digits fuel v acc)).
Proof.
  revert v acc. induction fuel as [|fuel IH]; intros v acc Hacc; [done |].
  simpl.
  assert (Hnew : Forall (λ ch, isxdigit ch = true ∧ ch ≠ 58)
                   (chars (String (hex_digit (v mod 16)) acc))).
  { simpl. apply Forall_cons. split; [| done].
    apply hex_digit_code, Z.mod_pos_bound. lia. }
  destruct (v / 16 =? 0); [done | by apply IH].
Qed.

Lemma no_colons (a : string) :
  Forall (λ ch, isxdigit ch = true ∧ ch ≠ 58) (chars a) →
  colons a = 0%nat ∧ Forall (λ ch, ch = 58 ∨ isxdigit ch = true) (chars a).
Proof.
  unfold colons. induction (chars a) as [|c l IH]; intros Hl; [done |].
  apply Forall_cons in Hl as [[Hx H58] Hl]. destruct (IH Hl) as [Hc Hf].
  rewrite filter_cons, decide_False by done.
  split; [done |]. apply Forall_cons. split; [by right | done].
Qed.

(** Under [%x] a value from 0 to 15 is one digit. *)
Lemma hex_digits_nibble (b : Z) :
  hex_digits 16 (Z.land b 15) "" = String (hex_digit (Z.land b 15)) "".
Proof.
  change 15 with (Z.ones 4). rewrite Z.land_ones by lia.
  pose proof (Z.mod_pos_bound b (2 ^ 4)) as Hb.
  change (hex_digits 16 ?v "")
    with (let acc := String (hex_digit (v mod 16)) "" in
          if v / 16 =? 0 then acc else hex_digits 15 (v / 16) acc).
  cbv zeta. change (2 ^ 4) with 16 in *.
  rewrite Z.div_small, Z.mod_small by lia. done.
Qed.

#[local] Arguments hex_digits : simpl never.
#[local] Arguments hex_digit : simpl never.

Lemma string_app_nil_r (a : string) : a +:+ "" = a.
Proof.
  induction a as [|c a IH]; [done |].
  change (String c (a +:+ "") = String c a). by rewrite IH.
Qed.

Lemma printAddr_2_out (v : Z) s :
  w_out (printAddr_2 BYTE_LOW BYTE_HIGH v s).2
  = w_out s ++ [hex_digits 16 (BYTE_LOW v) ""; " : ";
                hex_digits 16 (BYTE_HIGH v) ""].
Proof.
  unfold printAddr_2, printf_x, bind, printf.
  cbn [fst snd w_out]. by rewrite <- !app_assoc.
Qed.

(** X16: [printAddr] of an address object prints what [printAddr_2] of
    its value prints, the low byte in hexadecimal, then [" : "], then the
    high byte.  That text is not one [init_l2addr_154_char] reads back:
    its blank is neither a digit nor a colon, so the address made from
    it is [CONST16 (0, 0)] whatever address was printed. *)
Theorem printAddr_not_read_back s0 s (x v : Z) :
  (2 ≤ I154_ADDRLEN)%nat →
  w_addr s0 !! x = Some v →
  let text := printed (drop (length (w_out s0))
                            (w_out (printAddr_2 BYTE_LOW BYTE_HIGH v s0).2)) in
  let r := init_l2addr_154_char text s in
  printAddr BYTE_LOW BYTE_HIGH x s0 = printAddr_2 BYTE_LOW BYTE_HIGH v s0
  ∧ text = hex_digits 16 (BYTE_LOW v) "" +:+ " : "
           +:+ hex_digits 16 (BYTE_HIGH v) ""
  ∧ w_addr r.2 !! r.1 = Some (to_addr2 (CONST16 0 0)).
Proof.
  intros Hlen Hx text r.
  assert (Htext : text = hex_digits 16 (BYTE_LOW v) ""
                         +:+ String " " (": " +:+ hex_digits 16 (BYTE_HIGH v) "")).
  { unfold text. rewrite printAddr_2_out, drop_app_length.
    unfold printed. cbn [foldr]. by rewrite string_app_nil_r. }
  split; [| split].
  - unfold printAddr, printAddr_2.
    run_step ltac:(rewrite (load_addr_some _ _ _ Hx)).
    run_step ltac:(unfold printf_x, printf).
    run_step ltac:(unfold printf).
    run_step ltac:(rewrite (load_addr_some _ x v) by exact Hx).
    run_step ltac:(unfold printf_x, printf).
    run_step ltac:(unfold printf).
    reflexivity.
  - rewrite Htext. reflexivity.
  - unfold r. rewrite init_l2addr_154_char_run. cbn [fst snd w_addr].
    rewrite lookup_insert_eq. f_equal. rewrite Htext.
    destruct (no_colons (hex_digits 16 (BYTE_LOW v) "")) as [Hcol Hpre].
    { by apply hex_digits_chars. }
    apply parse_addr_invalid; try done.
    + apply fresh_buf_length.
    + rewrite Hcol. lia.
Qed.

(** One round of the loop of [dump_packet]. *)
Lemma dump_round_run (raw : Z → Z) (start j : Z) s :
  bind (if start <? j then printf_char else ret tt)
    (λ _, bind (printf_x (Z.land (Z.shiftr (raw j) 4) 15))
            (λ _, printf_x (Z.land (raw j) 15))) s
  = (tt, World (w_live s) (w_addr s) (w_net s) (w_bcast s) (w_conmsg s)
               (w_zig s) (w_calls s) (w_out s ++ byte_text (raw j))
               (w_oom s) (w_junk s)
               (if start <? j then true else w_ub s)).
Proof.
  unfold bind, printf_x, printf, printf_char, ret, with_ub, byte_text.
  rewrite !hex_digits_nibble.
  destruct (start <? j); simpl; by rewrite <- app_assoc.
Qed.

(** The loop of [dump_packet] from index [i] on, [count] rounds. *)
Lemma dump_loop_run (raw : Z → Z) (start : Z) (count : nat) (i : Z) s :
  start ≤ i →
  for_loop count i
    (λ j, bind (if start <? j then printf_char else ret tt)
            (λ _, bind (printf_x (Z.land (Z.shiftr (raw j) 4) 15))
                    (λ _, printf_x (Z.land (raw j) 15)))) s
  = (tt, World (w_live s) (w_addr s) (w_net s) (w_bcast s) (w_conmsg s)
               (w_zig s) (w_calls s)
               (w_out s ++ concat ((λ j, byte_text (raw j))
                                     <$> seqZ i (Z.of_nat count)))
               (w_oom s) (w_junk s)
               (if decide (count = 0%nat ∨ (count = 1%nat ∧ i = start))
                then w_ub s else true)).
Proof.
  revert i s. induction count as [|count IH]; intros i s Hi.
  - simpl. rewrite app_nil_r. by destruct s.
  - rewrite seqZ_cons by lia.
    replace (Z.pred (Z.of_nat (S count))) with (Z.of_nat count) by lia.
    cbn [for_loop].
    erewrite bind_run by apply dump_round_run.
    rewrite IH by lia. cbn [w_live w_addr w_net w_bcast w_conmsg w_zig
                            w_calls w_out w_oom w_junk w_ub].
    f_equal. f_equal.
    + rewrite <- app_assoc. reflexivity.
    + destruct (Z.ltb_spec start i); repeat case_decide; try done; lia.
Qed.

(** X17: with a frame held, [dump_packet] takes the bytes of the raw
    frame from [start] up to the smaller of [start + maxlen] (as a
    [size_t], so modulo [2 ^ size_t_bits]) and the frame's raw length.
    When that bound is not above [start] it prints a newline and nothing
    else; when it is [start + 1] it prints the two digits of the byte at
    [start] and the newline; in both cases it changes nothing else and does
    nothing undefined.  When two bytes or more are to be dumped, the
    second round calls [printf] with a character for a format, which is
    undefined: the dump has no defined outcome. *)
Theorem dump_packet_prints s (l2 start maxlen : Z) (net : l2net_154) :
  w_net s !! l2 = Some net →
  curframe_ net ≠ NULL →
  let f := zig_frame (w_zig s) (curframe_ net) in
  let stop := Z.min (rawlen f) ((start + maxlen) mod 2 ^ size_t_bits) in
  let s' := (dump_packet rawframe l2 start maxlen s).2 in
  (stop - start ≤ 1 →
   w_out s'
   = w_out s
     ++ (if decide (stop = start + 1)
         then byte_text (rawframe (w_zig s) (curframe_ net) start) else [])
     ++ [newline]
   ∧ w_ub s' = w_ub s
   ∧ w_calls s' = w_calls s ∧ w_net s' = w_net s ∧ w_addr s' = w_addr s)
  ∧ (1 < stop - start →
     outcome (dump_packet rawframe l2 start maxlen) s = None).
Proof.
  intros Hn Hheld f stop s'.
  assert (Hstop : (if rawlen f <? to_size_t (start + maxlen)
                   then rawlen f else to_size_t (start + maxlen)) = stop).
  { unfold stop, to_size_t. destruct (Z.ltb_spec (rawlen f)
      ((start + maxlen) mod 2 ^ size_t_bits)); lia. }
  assert (Hseq : seqZ start (Z.of_nat (Z.to_nat (stop - start)))
                 = seqZ start (stop - start)).
  { unfold seqZ. by rewrite Nat2Z.id. }
  assert (Hrun : dump_packet rawframe l2 start maxlen s
    = (tt, World (w_live s) (w_addr s) (w_net s) (w_bcast s) (w_conmsg s)
                 (w_zig s) (w_calls s)
                 (w_out s
                  ++ concat ((λ i, byte_text (rawframe (w_zig s)
                                                       (curframe_ net) i))
                               <$> seqZ start (stop - start))
                  ++ [newline])
                 (w_oom s) (w_junk s)
                 (if decide (stop - start ≤ 1) then w_ub s else true))).
  { unfold dump_packet.
    erewrite bind_run by (apply load_net_some; exact Hn). cbv beta.
    erewrite bind_run by (apply frame_at_held; exact Hheld).
    cbv beta zeta. fold f. rewrite Hstop.
    erewrite bind_run by (apply (dump_loop_run _ start); lia).
    unfold printf.
    cbn [w_live w_addr w_net w_bcast w_conmsg w_zig w_calls w_out w_oom
         w_junk w_ub].
    rewrite Hseq, <- app_assoc. do 2 f_equal.
    clear. clearbody stop. repeat case_decide; try done; lia. }
  split.
  - intros Hle. unfold s'. rewrite Hrun.
    cbn [snd w_out w_ub w_calls w_net w_addr].
    split; [| by rewrite decide_True by exact Hle].
    do 2 f_equal. clear Hrun Hstop Hseq s'. clearbody stop.
    case_decide as Hone.
    + replace (stop - start) with 1 by lia.
      rewrite seqZ_cons by lia. simpl. reflexivity.
    + unfold seqZ. replace (Z.to_nat (stop - start)) with 0%nat by lia.
      done.
  - intros Hmany. unfold outcome. rewrite Hrun. cbn [snd w_ub].
    rewrite decide_False by lia. done.
Qed.

End PrintingProperties.

(** ** The radio's inline functions *)

Section RF2xxProperties.
Context {chip : Type}.
Variable rf2xx_reg_read : Z → Z → chip → Z * chip.
Variable rf2xx_reg_write : Z → Z → Z → chip → chip.
Variables (RF2XX_REG__TRX_STATE RF2XX_REG__TRX_STATUS : Z).
Variable RF2XX_TRX_STATUS_MASK__TRX_STATUS : Z.

Lemma land_le_mask (v m : Z) : 0 ≤ m → 0 ≤ Z.land v m ≤ m.
Proof.
  intros Hm. split; [apply Z.land_nonneg; by right |].
  assert (Hsub : Z.ldiff (Z.land v m) m = 0).
  { apply Z.bits_inj'. intros k Hk.
    rewrite Z.ldiff_spec, Z.land_spec, Z.bits_0.
    by destruct (Z.testbit v k), (Z.testbit m k). }
  pose proof (Z.sub_nocarry_ldiff _ _ Hsub) as Hdiff.
  assert (0 ≤ Z.ldiff m (Z.land v m)) by (apply Z.ldiff_nonneg; by left).
  lia.
Qed.

(** X18: [rf2xx_get_status] reads the status register once and returns
    its value under the status mask: a byte with no bit outside the mask,
    hence at most the mask.  The chip is left as the read left it. *)
Theorem rf2xx_get_status_masked (radio : Z) (c : chip) :
  let r := rf2xx_get_status rf2xx_reg_read RF2XX_REG__TRX_STATUS
             RF2XX_TRX_STATUS_MASK__TRX_STATUS radio c in
  0 ≤ r.1 < 256
  ∧ Z.land r.1 RF2XX_TRX_STATUS_MASK__TRX_STATUS = r.1
  ∧ (0 ≤ RF2XX_TRX_STATUS_MASK__TRX_STATUS →
     r.1 ≤ RF2XX_TRX_STATUS_MASK__TRX_STATUS)
  ∧ r.2 = (rf2xx_reg_read radio RF2XX_REG__TRX_STATUS c).2.
Proof.
  unfold rf2xx_get_status.
  destruct (rf2xx_reg_read radio RF2XX_REG__TRX_STATUS c) as [v c'].
  simpl. unfold to_uint8.
  set (m := RF2XX_TRX_STATUS_MASK__TRX_STATUS).
  split; [apply Z.mod_pos_bound; lia |]. split; [| split; [| done]].
  - rewrite <- Z.land_ones by lia.
    rewrite <- Z.land_assoc, (Z.land_comm (Z.ones 8) m), Z.land_assoc.
    by rewrite <- (Z.land_assoc v m m), Z.land_diag.
  - intros Hm. destruct (land_le_mask v m Hm) as [H0 Hle].
    pose proof (Z.mod_le (Z.land v m) (2 ^ 8) H0). lia.
Qed.

End RF2xxProperties.

(** ** Starting, then sending *)

Section StartThenSend.
Context `{HD : Header} `{ZL : ZigMsg}.

(** X19: after a [startL2_154] whose three allocations succeeded,
    [getMTU] gives [I154_MTU], [maxpayload] gives [I154_MTU - 11] as a
    [size_t], and a frame of at most that length sent to [bcastaddr ()]
    goes to [sendto] with the broadcast address; up to there nothing
    undefined was done. *)
Theorem startL2_154_then_send s (a chan panid v data len : Z) :
  failures 3 s = 0%nat →
  w_addr s !! a = Some v →
  (2 ≤ I154_ADDRLEN)%nat →
  len ≤ (I154_MTU - 11) mod 2 ^ size_t_bits →
  let r := startL2_154 a chan panid s in
  let b := (bcastaddr r.2).1 in
  r.1 ≠ NULL ∧ b ≠ NULL ∧ w_ub r.2 = w_ub s
  ∧ getMTU r.1 r.2 = (I154_MTU, r.2)
  ∧ maxpayload r.1 r.2 = ((I154_MTU - 11) mod 2 ^ size_t_bits, r.2)
  ∧ send r.1 b data len r.2 = sendto addr2_broadcast data len r.2.
Proof.
  intros Hfail Ha Hlen Hle r b.
  pose proof (startL2_154_ok s a chan panid v Hfail Ha) as Hrun.
  cbv zeta in Hrun.
  assert (Hr1 : r.1 ≠ NULL).
  { unfold r. rewrite Hrun. apply fresh_not_null. }
  assert (Hb1 : b ≠ NULL).
  { unfold b, r. rewrite Hrun. apply fresh_not_null. }
  assert (Hub : w_ub r.2 = w_ub s).
  { unfold r. by rewrite Hrun. }
  assert (Hnet : w_net r.2 !! r.1 = Some (L2net v I154_MTU NULL)).
  { unfold r. rewrite Hrun. apply lookup_insert_eq. }
  assert (Hb : w_addr r.2 !! b = Some addr2_broadcast).
  { unfold b, r. rewrite Hrun. cbn [bcastaddr fst snd w_bcast w_addr].
    rewrite lookup_insert_eq. f_equal.
    apply parse_addr_ffff; [done | apply fresh_buf_length]. }
  split; [done |]. split; [done |]. split; [done |].
  split; [| split].
  - unfold getMTU, bind. by rewrite (load_net_some _ _ _ Hnet).
  - unfold maxpayload, bind. by rewrite (load_net_some _ _ _ Hnet).
  - rewrite (send_run r.2 r.1 _ b addr2_broadcast data len Hnet Hb).
    simpl. apply Z.leb_le in Hle. by rewrite Hle.
Qed.

End StartThenSend.

(** ** Allocation failure *)

Section AllocationFailure.
Context `{HD : Header} `{ZL : ZigMsg}.

(** The commands [startL2_154] is made of are [sticky]. *)
Lemma sticky_ret {A} (x : A) : sticky (ret x).
Proof. by intros s. Qed.

Lemma sticky_bind {A B} (c : M A) (k : A → M B) :
  sticky c → (∀ x, sticky (k x)) → sticky (bind c k).
Proof.
  intros Hc Hk s Hs. unfold bind. specialize (Hc s Hs).
  destruct (c s) as [x s1]. by apply Hk.
Qed.

Lemma sticky_malloc : sticky malloc.
Proof. by intros s. Qed.

Lemma sticky_report_null (p : Z) : sticky (report_null p).
Proof. intros s Hs. by rewrite report_null_run. Qed.

Lemma sticky_load_net (p : Z) : sticky (load_net p).
Proof.
  intros s Hs. unfold load_net, with_ub. simpl. rewrite Hs.
  by destruct (w_net s !! p).
Qed.

Lemma sticky_store_net (p : Z) (n : l2net_154) : sticky (store_net p n).
Proof. intros s Hs. unfold store_net. simpl. rewrite Hs. by case_decide. Qed.

Lemma sticky_set_mtu (p v : Z) : sticky (set_mtu p v).
Proof. intros s Hs. unfold set_mtu. by apply sticky_store_net. Qed.

Lemma sticky_set_curframe (p v : Z) : sticky (set_curframe p v).
Proof. intros s Hs. unfold set_curframe. by apply sticky_store_net. Qed.

Lemma sticky_set_conmsg (p : Z) : sticky (set_conmsg p).
Proof. by intros s. Qed.

Lemma sticky_extern {A} (c : call) (f : zig → A * zig) : sticky (extern c f).
Proof. by intros s. Qed.

Lemma sticky_setBroasdcastAddr : sticky setBroasdcastAddr.
Proof.
  intros s Hs. unfold setBroasdcastAddr, bind.
  rewrite init_l2addr_154_char_run. simpl. rewrite Hs.
  by destruct (malloc_fails s).
Qed.

(** [startL2_154] when the allocation of its [l2net_154] fails: line 145
    writes through the null pointer. *)
Lemma startL2_154_l2net_fails s (a chan panid : Z) :
  malloc_fails s = true → w_ub (startL2_154 a chan panid s).2 = true.
Proof.
  intros Hf. unfold startL2_154.
  run_step ltac:(unfold malloc; rewrite Hf).
  run_step ltac:(rewrite report_null_run).
  run_step ltac:(unfold load_addr).
  run_step ltac:(unfold set_myaddr, store_net, valid).
  match goal with
  | |- w_ub (?c ?s1).2 = true => assert (Hst : sticky c)
  end.
  { repeat first
      [ apply sticky_ret | apply sticky_malloc | apply sticky_report_null
      | apply sticky_load_net | apply sticky_set_mtu
      | apply sticky_set_curframe | apply sticky_set_conmsg
      | apply sticky_setBroasdcastAddr | apply sticky_extern
      | apply sticky_bind; [| intros ?] ]. }
  by apply Hst.
Qed.

(** [startL2_154] when the allocation of the broadcast address fails, the
    two before it succeeding: line 72 writes through the null pointer. *)
Lemma startL2_154_bcast_fails s (a chan panid v : Z) (o : list bool) :
  w_addr s !! a = Some v →
  w_oom s = false :: false :: true :: o →
  let r := startL2_154 a chan panid s in
  w_out r.2 = w_out s ++ [alloc_failed] ∧ w_ub r.2 = true.
Proof.
  intros Ha Hoom r. subst r.
  set (p1 := fresh ({[NULL]} ∪ w_live s)).
  set (p2 := fresh ({[NULL]} ∪ ({[p1]} ∪ w_live s))).
  assert (Hp1 : p1 ≠ NULL) by apply fresh_not_null.
  assert (Hp2 : p2 ≠ NULL) by apply fresh_not_null.
  unfold startL2_154.
  run_step ltac:(unfold malloc, malloc_fails; rewrite Hoom).
  fold p1.
  run_step ltac:(rewrite report_null_run, decide_False by done).
  run_step ltac:(unfold load_addr; simpl; rewrite Ha).
  run_step ltac:(unfold set_myaddr, store_net, net_at, valid; simpl;
                 rewrite decide_True by (split; [done | set_solver])).
  run_step ltac:(unfold malloc, malloc_fails; simpl).
  fold p2.
  run_step ltac:(unfold set_conmsg).
  run_step ltac:(rewrite report_null_run, decide_False by done).
  run_step ltac:(unfold load_net, net_at; simpl; rewrite lookup_insert_eq).
  simpl myaddr_.
  run_step ltac:(unfold setAddr2, extern).
  run_step ltac:(unfold setChannel, extern).
  run_step ltac:(unfold setPanid, extern).
  run_step ltac:(unfold setMsgbufsize, extern).
  run_step ltac:(unfold setBroasdcastAddr;
                 erewrite bind_run;
                 [| rewrite init_l2addr_154_char_run;
                    unfold malloc, malloc_fails, fresh_buf; simpl;
                    reflexivity];
                 unfold set_bcast).
  run_step ltac:(unfold set_mtu, store_net, net_at, valid; simpl;
                 rewrite lookup_insert_eq).
  run_step ltac:(unfold set_curframe, store_net, net_at, valid; simpl;
                 rewrite lookup_insert_eq).
  run_step ltac:(unfold start, extern).
  unfold ret. cbn [snd w_out w_ub].
  split; [by rewrite !app_nil_r | by repeat case_decide].
Qed.

(** [startL2_154] when the allocation of [conmsg] fails and the two others
    succeed: [conmsg] is stored in the global and never written through. *)
Lemma startL2_154_conmsg_fails s (a chan panid v : Z) (o : list bool) :
  w_addr s !! a = Some v →
  w_oom s = false :: true :: false :: o →
  let r := startL2_154 a chan panid s in
  r.1 ≠ NULL
  ∧ w_out r.2 = w_out s ++ [alloc_failed]
  ∧ w_ub r.2 = w_ub s
  ∧ w_conmsg r.2 = NULL
  ∧ w_net r.2 !! r.1 = Some (L2net v I154_MTU NULL)
  ∧ w_calls r.2
    = w_calls s ++ [CsetAddr2 v; CsetChannel chan; CsetPanid panid;
                    CsetMsgbufsize 10; Cstart].
Proof.
  intros Ha Hoom r. subst r.
  set (p1 := fresh ({[NULL]} ∪ w_live s)).
  set (p3 := fresh ({[NULL]} ∪ ({[p1]} ∪ w_live s))).
  assert (Hp1 : p1 ≠ NULL) by apply fresh_not_null.
  assert (Hp3 : p3 ≠ NULL) by apply fresh_not_null.
  unfold startL2_154.
  run_step ltac:(unfold malloc, malloc_fails; rewrite Hoom).
  fold p1.
  run_step ltac:(rewrite report_null_run, decide_False by done).
  run_step ltac:(unfold load_addr; simpl; rewrite Ha).
  run_step ltac:(unfold set_myaddr, store_net, net_at, valid; simpl;
                 rewrite decide_True by (split; [done | set_solver])).
  run_step ltac:(unfold malloc, malloc_fails; simpl).
  run_step ltac:(unfold set_conmsg).
  run_step ltac:(rewrite report_null_run).
  run_step ltac:(unfold load_net, net_at; simpl; rewrite lookup_insert_eq).
  simpl myaddr_.
  run_step ltac:(unfold setAddr2, extern).
  run_step ltac:(unfold setChannel, extern).
  run_step ltac:(unfold setPanid, extern).
  run_step ltac:(unfold setMsgbufsize, extern).
  run_step ltac:(unfold setBroasdcastAddr;
                 erewrite bind_run;
                 [| rewrite init_l2addr_154_char_run;
                    unfold malloc, malloc_fails, fresh_buf; simpl;
                    reflexivity];
                 unfold set_bcast).
  fold p3.
  run_step ltac:(unfold set_mtu, store_net, net_at, valid; simpl;
                 rewrite lookup_insert_eq;
                 rewrite decide_True by (split; [done | set_solver])).
  run_step ltac:(unfold set_curframe, store_net, net_at, valid; simpl;
                 rewrite lookup_insert_eq;
                 rewrite decide_True by (split; [done | set_solver])).
  run_step ltac:(unfold start, extern).
  unfold ret. cbn [fst snd w_out w_ub w_conmsg w_net w_calls].
  split; [done |]. split; [by rewrite !app_nil_r |].
  split; [done |]. split; [done |]. split.
  - rewrite !insert_insert_eq. apply lookup_insert_eq.
  - by rewrite <- !app_assoc.
Qed.

(** C7: an allocation that fails is not followed by the message alone.
    When the allocation of [init_l2addr_154_char], [init_l2addr_154_addr],
    [get_src] or [get_dst] fails, the function prints the message and,
    having no return there, comes to the write through the null pointer
    [malloc] returned: the run has no defined outcome, so the function
    neither goes on nor returns.  [startL2_154] does the same when the allocation of its
    [l2net_154] fails, and when that of the broadcast address does.  Only
    a failed allocation of [conmsg], a pointer [startL2_154] stores and
    never writes through, is followed by the message and nothing else:
    the function then completes as it does otherwise, the global [conmsg]
    being null. *)
Theorem allocation_failure_undefined s (a : string)
    (x l2 own chan panid : Z) :
  let message_then_undefined (c : M Z) :=
    w_out (c s).2 = w_out s ++ [alloc_failed] ∧ outcome c s = None in
  (malloc_fails s = true →
   message_then_undefined (init_l2addr_154_char a)
   ∧ message_then_undefined (init_l2addr_154_addr x)
   ∧ message_then_undefined (get_src l2)
   ∧ message_then_undefined (get_dst l2)
   ∧ outcome (startL2_154 own chan panid) s = None)
  ∧ (∀ v o, w_addr s !! own = Some v →
       w_oom s = false :: false :: true :: o →
       message_then_undefined (startL2_154 own chan panid))
  ∧ (∀ v o, w_addr s !! own = Some v →
       w_oom s = false :: true :: false :: o →
       let r := startL2_154 own chan panid s in
       r.1 ≠ NULL
       ∧ w_out r.2 = w_out s ++ [alloc_failed]
       ∧ w_ub r.2 = w_ub s
       ∧ w_conmsg r.2 = NULL
       ∧ w_net r.2 !! r.1 = Some (L2net v I154_MTU NULL)
       ∧ w_calls r.2
         = w_calls s ++ [CsetAddr2 v; CsetChannel chan; CsetPanid panid;
                         CsetMsgbufsize 10; Cstart]).
Proof.
  intros message_then_undefined. unfold message_then_undefined, outcome.
  split; [| split].
  - intros Hf. split; [| split; [| split; [| split]]].
    + rewrite init_l2addr_154_char_run. simpl. by rewrite Hf.
    + rewrite init_l2addr_154_addr_run. unfold addr_made. simpl.
      by rewrite Hf.
    + rewrite get_src_run. unfold addr_made. simpl. by rewrite Hf.
    + rewrite get_dst_run. unfold addr_made. simpl. by rewrite Hf.
    + by rewrite (startL2_154_l2net_fails s own chan panid Hf).
  - intros v o Ha Hoom.
    destruct (startL2_154_bcast_fails s own chan panid v o Ha Hoom)
      as [Hout Hub].
    by rewrite Hout, Hub.
  - intros v o Ha Hoom.
    apply (startL2_154_conmsg_fails s own chan panid v o Ha Hoom).
Qed.

End AllocationFailure.

(** ** The further theorems on the concrete platform *)

Lemma init_l2addr_154_char_two_fields_witness :
  let r := init_l2addr_154_char "12:34" (world0 [] []) in
  w_addr r.2 !! r.1 = Some 13330.
Proof.
  assert (Hlen : (2 ≤ I154_ADDRLEN)%nat) by (simpl; lia).
  assert (Hd1 : Forall (λ ch, isxdigit ch = true) (chars "12"))
    by repeat constructor.
  assert (Hd2 : Forall (λ ch, isxdigit ch = true) (chars "34"))
    by repeat constructor.
  pose proof (init_l2addr_154_char_two_fields (world0 [] []) "12" "34"
                Hlen Hd1 Hd2) as Hw.
  vm_compute in Hw. vm_compute. exact Hw.
Defined.

Lemma init_l2addr_154_char_one_field_witness :
  let r := init_l2addr_154_char "ab" (world0 [] []) in
  w_addr r.2 !! r.1 = Some 43691.
Proof.
  assert (Hlen : (2 ≤ I154_ADDRLEN)%nat) by (simpl; lia).
  assert (Hd : Forall (λ ch, isxdigit ch = true) (chars "ab"))
    by repeat constructor.
  pose proof (init_l2addr_154_char_one_field (world0 [] []) "ab" Hlen Hd)
    as Hw.
  vm_compute in Hw. vm_compute. exact Hw.
Defined.

Lemma init_l2addr_154_char_ignores_rest_witness :
  init_l2addr_154_char "12:34:zz" (world0 [] [])
  = init_l2addr_154_char "12:34:" (world0 [] []).
Proof.
  assert (Ht : Forall (λ ch, ch = 58 ∨ isxdigit ch = true) (chars "12:34:"))
    by (repeat constructor; (by left) || (by right)).
  assert (Hcol : colons "12:34:" = I154_ADDRLEN) by (vm_compute; reflexivity).
  exact (init_l2addr_154_char_ignores_rest (world0 [] []) "12:34:" "zz"
           Ht Hcol).
Defined.

Lemma init_l2addr_154_addr_copy_witness :
  let r := init_l2addr_154_addr node.1.1 node.2 in
  w_addr node.2 !! node.1.1 = Some 13330
  ∧ r.1 ≠ node.1.1
  ∧ (isEqualAddr r.1 node.1.1 r.2).1 = true.
Proof.
  assert (Hok : malloc_fails node.2 = false) by (vm_compute; reflexivity).
  assert (Hx : w_addr node.2 !! node.1.1 = Some 13330)
    by (vm_compute; reflexivity).
  assert (Hdom : dom (w_addr node.2) ⊆ w_live node.2) by compute_done.
  pose proof (init_l2addr_154_addr_copy node.2 _ _ Hok Hx Hdom) as Hw.
  cbv zeta in Hw |- *. destruct Hw as (_ & _ & Hne & _ & _ & Heq & _).
  split; [exact Hx |]. split; [exact Hne | exact Heq].
Defined.

Lemma isEqualAddr_equivalence_witness :
  (isEqualAddr node.1.1 (w_bcast node.2) node.2).1
  = (isEqualAddr (w_bcast node.2) node.1.1 node.2).1.
Proof.
  assert (Hx : w_addr node.2 !! node.1.1 = Some 13330)
    by (vm_compute; reflexivity).
  assert (Hy : w_addr node.2 !! w_bcast node.2 = Some 65535)
    by (vm_compute; reflexivity).
  destruct (isEqualAddr_equivalence node.2 _ _ _ _ _ _ Hx Hy Hx)
    as (_ & Hsym & _).
  exact Hsym.
Defined.

Lemma startL2_154_fresh_witness :
  let r := startL2_154 addressed.1 26 51966 addressed.2 in
  w_net r.2 = <[r.1 := L2net 13330 127 NULL]> (w_net addressed.2)
  ∧ w_ub r.2 = w_ub addressed.2.
Proof.
  assert (Hfail : failures 3 addressed.2 = 0%nat) by (vm_compute; reflexivity).
  assert (Ha : w_addr addressed.2 !! addressed.1 = Some 13330)
    by (vm_compute; reflexivity).
  assert (Hlen : (2 ≤ I154_ADDRLEN)%nat) by (simpl; lia).
  assert (Hdom : dom (w_addr addressed.2) ⊆ w_live addressed.2)
    by compute_done.
  pose proof (startL2_154_fresh addressed.2 _ 26 51966 _ Hfail Ha Hlen Hdom)
    as Hw.
  cbv zeta in Hw |- *. destruct Hw as (_ & _ & _ & Hnet & _ & _ & _ & Hub).
  split; [exact Hnet | exact Hub].
Defined.

Lemma setMTU_getMTU_witness :
  (getMTU node.1.2 (setMTU node.1.2 5 node.2).2).1 = 5.
Proof.
  assert (Hnet : w_net node.2 !! node.1.2 = Some (L2net 13330 127 NULL))
    by (vm_compute; reflexivity).
  pose proof (setMTU_getMTU node.2 node.1.2 5 _ Hnet) as Hw.
  cbv zeta in Hw. destruct Hw as (Hget & _). by rewrite Hget.
Defined.

Lemma send_iff_maxpayload_witness :
  send node.1.2 node.1.1 777 117 node.2 = (false, node.2).
Proof.
  assert (Hnet : w_net node.2 !! node.1.2 = Some (L2net 13330 127 NULL))
    by (vm_compute; reflexivity).
  assert (Hd : w_addr node.2 !! node.1.1 = Some 13330)
    by (vm_compute; reflexivity).
  destruct (send_iff_maxpayload node.2 node.1.2 node.1.1 _ 777 117 _ Hnet Hd)
    as (_ & Hlong).
  apply Hlong. vm_compute. reflexivity.
Defined.

Lemma recv_twice_witness :
  let s1 := (recv node.1.2 node.2).2 in
  w_calls (recv node.1.2 s1).2
  = w_calls s1 ++ [Cskip_received; Cget_received].
Proof.
  assert (Hnet : w_net node.2 !! node.1.2 = Some (L2net 13330 127 NULL))
    by (vm_compute; reflexivity).
  pose proof (recv_twice node.2 node.1.2 _ Hnet) as Hw.
  cbv zeta in Hw |- *. destruct Hw as (Hcalls & _).
  rewrite Hcalls. f_equal.
Defined.

Lemma recv_then_accessors_witness :
  let s1 := (recv node.1.2 node.2).2 in
  get_payload node.1.2 3 s1 = (200, s1) ∧ get_paylen node.1.2 s1 = (5, s1).
Proof.
  assert (Hnet : w_net node.2 !! node.1.2 = Some (L2net 13330 127 NULL))
    by (vm_compute; reflexivity).
  pose proof (recv_then_accessors node.2 node.1.2 3 _ Hnet) as Hw.
  cbv zeta in Hw |- *. destruct Hw as (Hheld & _).
  destruct Hheld as (Hpay & Hlen & _); [vm_compute; discriminate |].
  split; [exact Hpay | exact Hlen].
Defined.

Lemma recv_then_get_dst_witness :
  let s1 := (recv node.1.2 node.2).2 in
  w_addr (get_dst node.1.2 s1).2 !! (get_dst node.1.2 s1).1 = Some 13330
  ∨ w_addr (get_dst node.1.2 s1).2 !! (get_dst node.1.2 s1).1
    = Some addr2_broadcast.
Proof.
  assert (Hnet : w_net node.2 !! node.1.2 = Some (L2net 13330 127 NULL))
    by (vm_compute; reflexivity).
  assert (H1 : RECV_EMPTY ≠ RECV_OK) by discriminate.
  assert (H2 : RECV_EMPTY ≠ RECV_WRONG_DEST) by discriminate.
  assert (H3 : RECV_OK ≠ RECV_WRONG_DEST) by discriminate.
  pose proof (recv_then_get_dst node.2 node.1.2 _ Hnet H1 H2 H3) as Hw.
  cbv zeta in Hw |- *. destruct Hw as (Hok & _).
  apply Hok. vm_compute. reflexivity.
Defined.

Lemma make_then_free_witness :
  let r := get_src node_polled.1.2 node_polled.2 in
  w_live (freel2addr_154 r.1 r.2).2 = w_live node_polled.2
  ∧ w_addr (freel2addr_154 r.1 r.2).2 = w_addr node_polled.2.
Proof.
  assert (Hok : malloc_fails node_polled.2 = false)
    by (vm_compute; reflexivity).
  assert (Hx : w_addr node_polled.2 !! node_polled.1.1 = Some 13330)
    by (vm_compute; reflexivity).
  assert (Hnet : w_net node_polled.2 !! node_polled.1.2
                 = Some (L2net 13330 127 100)) by (vm_compute; reflexivity).
  assert (Hheld : curframe_ (L2net 13330 127 100) ≠ NULL) by discriminate.
  assert (Hda : dom (w_addr node_polled.2) ⊆ w_live node_polled.2)
    by compute_done.
  assert (Hdn : dom (w_net node_polled.2) ⊆ w_live node_polled.2)
    by compute_done.
  pose proof (make_then_free node_polled.2 _ _ _ _ Hok Hx Hnet Hheld Hda Hdn)
    as Hw.
  cbv zeta in Hw |- *. destruct Hw as (_ & (Hlive & Haddr & _) & _).
  split; [exact Hlive | exact Haddr].
Defined.

Lemma free_bcastaddr_dangles_witness :
  let s1 := (startL2_154 addressed.1 26 51966 addressed.2).2 in
  let s2 := (freel2addr_154 (bcastaddr s1).1 s1).2 in
  w_ub (isEqualAddr addressed.1 (bcastaddr s1).1 s2).2 = true.
Proof.
  assert (Hfail : failures 3 addressed.2 = 0%nat) by (vm_compute; reflexivity).
  assert (Ha : w_addr addressed.2 !! addressed.1 = Some 13330)
    by (vm_compute; reflexivity).
  pose proof (free_bcastaddr_dangles addressed.2 _ 26 51966 _ addressed.1
                Hfail Ha) as Hw.
  cbv zeta in Hw |- *. destruct Hw as (_ & _ & _ & Hub). exact Hub.
Defined.

Lemma printAddr_not_read_back_witness :
  let text := printed (drop (length (w_out node.2))
                            (w_out (printAddr_2 byte_low byte_high 13330
                                      node.2).2)) in
  let r := init_l2addr_154_char text (world0 [] []) in
  text = "12 : 34"%string ∧ w_addr r.2 !! r.1 = Some 0.
Proof.
  assert (Hlen : (2 ≤ I154_ADDRLEN)%nat) by (simpl; lia).
  assert (Hx : w_addr node.2 !! node.1.1 = Some 13330)
    by (vm_compute; reflexivity).
  pose proof (printAddr_not_read_back byte_low byte_high node.2
                (world0 [] []) _ _ Hlen Hx) as Hw.
  cbv zeta in Hw |- *. destruct Hw as (_ & Htext & Hzero).
  split; [rewrite Htext; vm_compute; reflexivity |].
  vm_compute in Hzero. vm_compute. exact Hzero.
Defined.

Lemma dump_packet_prints_witness :
  (let s' := (dump_packet counting_raw node_polled.1.2 2 1 node_polled.2).2 in
   w_out s' = w_out node_polled.2 ++ ["2"; "1"; newline]
   ∧ w_ub s' = false)
  ∧ outcome (dump_packet counting_raw node_polled.1.2 2 3) node_polled.2
    = None.
Proof.
  assert (Hnet : w_net node_polled.2 !! node_polled.1.2
                 = Some (L2net 13330 127 100)) by (vm_compute; reflexivity).
  assert (Hheld : curframe_ (L2net 13330 127 100) ≠ NULL) by discriminate.
  split.
  - pose proof (dump_packet_prints counting_raw node_polled.2 node_polled.1.2
                  2 1 _ Hnet Hheld) as Hw.
    cbv zeta in Hw |- *. destruct Hw as (Hone & _).
    destruct Hone as (Hout & Hub & _); [vm_compute; discriminate |].
    split; [rewrite Hout | rewrite Hub]; vm_compute; reflexivity.
  - pose proof (dump_packet_prints counting_raw node_polled.2 node_polled.1.2
                  2 3 _ Hnet Hheld) as Hw.
    cbv zeta in Hw. destruct Hw as (_ & Hmany).
    apply Hmany. vm_compute. reflexivity.
Defined.

Lemma startL2_154_then_recv_witness :
  let r := startL2_154 addressed.1 26 51966 addressed.2 in
  w_calls (recv r.1 r.2).2
  = [CsetAddr2 13330; CsetChannel 26; CsetPanid 51966; CsetMsgbufsize 10;
     Cstart; Cget_received]
  ∧ w_ub (recv r.1 r.2).2 = false.
Proof.
  assert (Hfail : failures 3 addressed.2 = 0%nat) by (vm_compute; reflexivity).
  assert (Ha : w_addr addressed.2 !! addressed.1 = Some 13330)
    by (vm_compute; reflexivity).
  pose proof (startL2_154_then_recv addressed.2 addressed.1 26 51966 _
                Hfail Ha) as Hw.
  cbv zeta in Hw |- *. destruct Hw as (_ & Hcalls & Hub).
  split; [rewrite Hcalls | rewrite Hub]; vm_compute; reflexivity.
Defined.

Lemma startL2_154_then_send_witness :
  let r := startL2_154 addressed.1 26 51966 addressed.2 in
  send r.1 (bcastaddr r.2).1 777 116 r.2 = sendto addr2_broadcast 777 116 r.2
  ∧ w_ub r.2 = false.
Proof.
  assert (Hfail : failures 3 addressed.2 = 0%nat) by (vm_compute; reflexivity).
  assert (Ha : w_addr addressed.2 !! addressed.1 = Some 13330)
    by (vm_compute; reflexivity).
  assert (Hlen : (2 ≤ I154_ADDRLEN)%nat) by (simpl; lia).
  assert (Hle : 116 ≤ (I154_MTU - 11) mod 2 ^ size_t_bits)
    by (vm_compute; discriminate).
  pose proof (startL2_154_then_send addressed.2 addressed.1 26 51966 _
                777 116 Hfail Ha Hlen Hle) as Hw.
  cbv zeta in Hw |- *. destruct Hw as (_ & _ & Hub & _ & _ & Hsend).
  split; [exact Hsend | rewrite Hub; vm_compute; reflexivity].
Defined.

Lemma allocation_failure_undefined_witness :
  (let s := world0 [] [true] in
   w_out (init_l2addr_154_char "12:34" s).2 = [alloc_failed]
   ∧ outcome (init_l2addr_154_char "12:34") s = None
   ∧ outcome (startL2_154 0 26 51966) s = None)
  ∧ (let s := (init_l2addr_154_char "12:34"
                 (world0 [] [false; false; false; true])).2 in
     outcome (startL2_154 1 26 51966) s = None)
  ∧ (let s := (init_l2addr_154_char "12:34"
                 (world0 [] [false; false; true; false])).2 in
     let r := startL2_154 1 26 51966 s in
     w_out r.2 = [alloc_failed] ∧ w_ub r.2 = false ∧ w_conmsg r.2 = NULL).
Proof.
  split; [| split].
  - pose proof (allocation_failure_undefined (world0 [] [true]) "12:34"
                  0 0 0 26 51966) as Hw.
    cbv zeta in Hw |- *. destruct Hw as (Hfirst & _).
    destruct Hfirst as ((Hout & Hnone) & _ & _ & _ & Hstart);
      [vm_compute; reflexivity |].
    split; [rewrite Hout; vm_compute; reflexivity |].
    split; [exact Hnone | exact Hstart].
  - pose proof (allocation_failure_undefined
                  (init_l2addr_154_char "12:34"
                     (world0 [] [false; false; false; true])).2 "12:34"
                  0 0 1 26 51966) as Hw.
    cbv zeta in Hw |- *. destruct Hw as (_ & Hbcast & _).
    destruct (Hbcast 13330 []) as (_ & Hnone);
      [vm_compute; reflexivity | vm_compute; reflexivity |].
    exact Hnone.
  - pose proof (allocation_failure_undefined
                  (init_l2addr_154_char "12:34"
                     (world0 [] [false; false; true; false])).2 "12:34"
                  0 0 1 26 51966) as Hw.
    cbv zeta in Hw |- *. destruct Hw as (_ & _ & Hconmsg).
    destruct (Hconmsg 13330 []) as (_ & Hout & Hub & Hcon & _);
      [vm_compute; reflexivity | vm_compute; reflexivity |].
    split; [rewrite Hout; vm_compute; reflexivity |].
    split; [rewrite Hub; vm_compute; reflexivity | exact Hcon].
Defined.
